(* ===== verification/_CoqProject ===== *)
-Q . S2P
Prelude.v
Unicode.v
Decode.v
Json.v
Normalize.v
Escape.v
Clip.v
Uri.v
JsonParse.v
Page.v
Sitemap.v
Fs.v
Run.v
