(* ===== verification/Prelude.v ===== *)
(** * A verification library for seikei-soudan's static page generator

    The repository has one program, [src/generate.mjs]: a Node script that
    reads [questions.json], keeps the questions that are neither deleted nor
    empty, renders one HTML page per question into [q/<id>.html] and writes
    a [sitemap.xml] listing them.  Its parts, in the order the script calls
    them, and the file of this library that models each:

    - [Unicode.v]: the string substrate.  JavaScript strings are sequences
      of UTF-16 code units; the script's literals are UTF-8 text in the
      source file; [encodeURIComponent] and [fs.writeFileSync(..,"utf-8")]
      turn code units into code points and then into UTF-8 bytes.  Strings
      are [list Z] of code units, bytes are [list Z] in [0,256).
    - [Decode.v]: the UTF-8 decoder behind [readFileSync(INPUT, "utf-8")]
      (line 30), WHATWG's decoder as Node runs it, with U+FFFD for each
      maximal invalid subsequence, over a state record of the bytes still
      expected and the range the next one may take.
    - [Json.v]: the values [JSON.parse] produces ([json]), JavaScript
      property access on them ([get], the last duplicate key wins),
      truthiness ([truthy]) and [String(v)] ([to_string]).
    - [JsonParse.v]: [JSON.parse] (line 31) on the decoded text, a
      recursive-descent parser with fuel, and a [JSON.stringify]-style
      printer it reads back.
    - [Escape.v]: [esc] (lines 8-15), the chain of five [replaceAll] calls,
      with its one-pass reference [esc_ref] and the entity decoder
      [unesc] it round-trips with.
    - [Clip.v]: [clip] (lines 17-20): [replace(/\s+/g," ")], [trim] and
      the truncation with the ellipsis.
    - [Normalize.v]: the [.map(..).filter(..)] of [run] (lines 79-93) that
      turns raw records of the two shapes into page records, with an
      abstract specification by shapes and its refinement theorem.
    - [Uri.v]: [encodeURIComponent], which the page and its link use, with
      the percent-decoder it round-trips with.
    - [Page.v]: [pageHtml] (lines 36-72), the HTML template.
    - [Sitemap.v]: the sitemap text built in [run] (lines 105-109) and a
      reader of that text.
    - [Fs.v]: the file system the script touches ([existsSync],
      [readFileSync], [mkdirSync {recursive}], [writeFileSync]) as an
      explicit state with errors over normalised absolute paths,
      [path.join]'s normalisation, and [process.cwd()] (line 4), which
      fails once the working directory is gone.
    - [Run.v]: [loadJson] (lines 26-34) and [run] (lines 74-113) in a
      state-and-exception monad over that file system, for a given [ROOT];
      [script] is the module's top level (read [process.cwd()] at line 4,
      call [run()] at line 115) and [main] the exit status.  The section
      abstracts over the text-to-value step, and [node_parse] (the
      composition [JsonParse.json_parse] after [Decode.utf8_decode_node])
      instantiates it with Node's own behaviour.

    How they interact: [Run.script] reads the working directory and
    hands it to [Run.run] as [ROOT]; [run] threads one file-system state (Fs.v)
    through [ensure_dir], [load_json], the record pipeline
    [Normalize.normalize], one [write_file] per page of [Page.page_html]
    (which calls [Escape.esc], [Clip.clip] and [Uri.encodeURIComponent]),
    the [write_file] of [Sitemap.sitemap_xml] and the [log] of the summary.
    Errors are values of [Fs.res]: a thrown error stops the sequence and
    keeps the state the failing call left, as Node's synchronous calls do.

    What the theorems show, by group (the claim ids C1..C40 follow the
    manifest's order of importance):
    - Normalize (C1-C6): the pipeline refines a shape-based specification;
      deleted or incomplete records are never published; the page records
      are members of the input; the divergences on the outer [deleted]
      flag and on a non-object [data].
    - Escape (C7-C9): [esc] equals a one-pass escaping, its output is safe
      text, and entity decoding inverts it.
    - Clip (C10-C13): the regex-and-trim normalisation equals a word-based
      reference; the clipped text and its length; a cut surrogate pair.
    - Uri and Page (C14-C18): the percent-encoding round trip and the
      characters it emits; when [pageHtml] throws, the safety of the
      template's holes and the 120 bound.
    - Sitemap (C19, C31, C32): the locations read back from the sitemap;
      an id with markup adds entries; the sitemap URL is not the canonical
      one.
    - Fs and Run (C20-C30, C33-C35, C40): well-formedness of the file
      system is kept by the whole process; the process creates no
      directory but [q/]; [path.join] keeps paths normalised; [ensureDir]
      is idempotent; a failed load aborts before any write and exits with
      status 1; the run returns when its inputs allow it; the exact
      files, directories and output after a successful run (last write
      wins); a failed process keeps the old sitemap; the spec's examples
      run in a concrete working directory from the bytes of
      [questions.json]; duplicate ids; an id can place a page at any
      absolute path ending in [.html]; a leading byte order mark makes
      the run fail.
    - JSON and UTF-8 (C36-C39): [JSON.parse] never runs out of its fuel;
      it reads back what the printer writes; the decoder inverts the
      encoder on well-formed text and always yields well-formed text.

    Bounds and fuel: [Escape.unesc] and [Sitemap.read_entries] take the
    length of their input as fuel, which is enough because each step
    consumes at least one unit (the round-trip theorems use exactly that
    fuel).  [JsonParse.json_parse] gives its mutual recursion
    [2 * length s + 1] units: on a suffix of [n] units, [parse_value] and
    [parse_members] need more than [2 * n] and [parse_items], which calls
    [parse_value] before consuming anything, more than [2 * n + 1]
    ([parse_progress]); so [json_parse_terminates] proves the fuel error
    never occurs.  Numbers are [Z]: the parser returns [PUnsupported] for a
    fraction, an exponent or a magnitude above 2^53, where a double
    is not an integer or not exact.  Strings are lists of UTF-16 code
    units, bytes lists of [Z] in [0, 256).

    Paths are the segments of normalised absolute paths ([[]] is [/]);
    [Fs.path_join_normal] shows [path.join] keeps them so.  The examples
    run in [/home/seikei-soudan].

    Not modelled: JSON numbers outside that integer fragment: a fraction
    would need the double nearest to the decimal and, for [String(v)],
    ECMA-262's Number::toString (the shortest decimal that rounds back),
    a verified decimal-binary conversion this library does not have, so
    the parser refuses such numbers rather than guess a value;
    permissions, disk space and symbolic links of the file system, whose
    failures the script does not handle anyway (they would be further
    [ErrFs] values), and a working directory that changes during the
    run (nothing in the script calls [process.chdir]).

    This file is the prelude: the [js_scope] notations, the [js] hint
    databases and tactics, and generic lemmas on lists and integers the
    components share. *)

From stdpp Require Import base list.
From Stdlib Require Import ZArith Lia.

(** ** Notation *)

Declare Scope js_scope.
Delimit Scope js_scope with js.

(** A JavaScript string: its UTF-16 code units, each in [0, 65536). *)
Abbreviation jsstr := (list Z) (only parsing).

(** Membership of a code unit in a string, as the code's [includes]. *)
Notation "c '∈u' s" := (existsb (Z.eqb c) s = true)
  (at level 70, no associativity) : js_scope.

Open Scope js_scope.

(** ** Automation *)

Create HintDb js discriminated.
Create Rewrite HintDb js_simpl.

Ltac invc H := inversion H; subst; clear H.

(** Case on every boolean comparison of [Z] in the goal, turning each into
    the proposition it decides. *)
Ltac zbool :=
  repeat match goal with
  | |- context [Z.eqb ?a ?b] => destruct (Z.eqb_spec a b)
  | |- context [Z.leb ?a ?b] => destruct (Z.leb_spec a b)
  | |- context [Z.ltb ?a ?b] => destruct (Z.ltb_spec a b)
  | H : context [Z.eqb ?a ?b] |- _ => destruct (Z.eqb_spec a b)
  | H : context [Z.leb ?a ?b] |- _ => destruct (Z.leb_spec a b)
  | H : context [Z.ltb ?a ?b] |- _ => destruct (Z.ltb_spec a b)
  end.

(** [lia] with [Z.div] and [Z.modulo] by constants turned into their
    Euclidean equations first. *)
Ltac zlia := Z.div_mod_to_equations; lia.

(** Case on the boolean comparisons of [Z] in the goal, discarding at once
    the branches whose test contradicts the hypotheses. *)
Ltac zcase :=
  repeat match goal with
  | |- context [Z.ltb ?a ?b] => destruct (Z.ltb_spec a b); try (exfalso; lia)
  | |- context [Z.leb ?a ?b] => destruct (Z.leb_spec a b); try (exfalso; lia)
  | |- context [Z.eqb ?a ?b] => destruct (Z.eqb_spec a b); try (exfalso; lia)
  end.

(** ** Generic lemmas on lists *)

Lemma flat_map_app {A B} (f : A -> list B) (l1 l2 : list A) :
  flat_map f (l1 ++ l2) = flat_map f l1 ++ flat_map f l2.
Proof. induction l1 as [|x l1 IH]; simpl; [done|]. by rewrite IH, app_assoc. Qed.

Lemma existsb_app_false {A} (p : A -> bool) l1 l2 :
  existsb p (l1 ++ l2) = false <-> existsb p l1 = false /\ existsb p l2 = false.
Proof. rewrite existsb_app. apply orb_false_iff. Qed.

Lemma existsb_flat_map_false {A B} (p : B -> bool) (f : A -> list B) l :
  (forall x, In x l -> existsb p (f x) = false) -> existsb p (flat_map f l) = false.
Proof.
  induction l as [|x l IH]; intros H; simpl; [done|].
  apply existsb_app_false. split; [apply H; left; done|].
  apply IH. intros y Hy. apply H. by right.
Qed.

Lemma forallb_flat_map {A B} (p : B -> bool) (f : A -> list B) l :
  (forall x, In x l -> forallb p (f x) = true) -> forallb p (flat_map f l) = true.
Proof.
  induction l as [|x l IH]; intros H; simpl; [done|].
  rewrite forallb_app. apply andb_true_intro. split; [apply H; by left|].
  apply IH. intros y Hy. apply H. by right.
Qed.

Lemma app_snoc_cons {A} (x t : list A) c : x ++ c :: t = (x ++ [c]) ++ t.
Proof. by rewrite <- app_assoc. Qed.

Lemma flat_map_flat_map {A B C} (f : B -> list C) (g : A -> list B) l :
  flat_map f (flat_map g l) = flat_map (fun x => flat_map f (g x)) l.
Proof. induction l as [|x l IH]; simpl; [done|]. by rewrite flat_map_app, IH. Qed.

Lemma length_flat_map_ge {A B} (f : A -> list B) l :
  (forall x, 1 <= length (f x))%nat -> (length l <= length (flat_map f l))%nat.
Proof.
  intros H. induction l as [|x l IH]; simpl; [lia|].
  rewrite length_app. specialize (H x). lia.
Qed.

Lemma length_flat_map_le {A B} (f : A -> list B) l k :
  (forall x, length (f x) <= k)%nat -> (length (flat_map f l) <= k * length l)%nat.
Proof.
  intros H. induction l as [|x l IH]; simpl; [lia|].
  rewrite length_app. specialize (H x). lia.
Qed.

Lemma length_flat_map_ge' {A} (a : A) (l : list (list A)) :
  (length l <= length (flat_map (fun y => a :: y) l))%nat.
Proof. induction l as [|x l IH]; simpl; [lia|]. rewrite length_app. simpl. lia. Qed.

#[export] Hint Rewrite @flat_map_app @forallb_app @existsb_app : js_simpl.
