(* ===== verification/Unicode.v ===== *)
(** * Unicode: JavaScript strings, UTF-16 and UTF-8

    The script manipulates JavaScript strings, which are sequences of
    UTF-16 code units.  Three conversions of the runtime matter to it:
    - the engine reads its string literals from the UTF-8 source file
      ([lit]: decode the bytes, then encode each code point in UTF-16);
    - [encodeURIComponent] reads a string as code points, and fails on a
      lone surrogate ([utf16_decode] marks those as [Lone]);
    - [fs.writeFileSync(path, text, "utf-8")] writes the UTF-8 bytes of the
      code points, a lone surrogate becoming U+FFFD ([to_utf8]).
    Code points and bytes are kept as [Z]; the arithmetic form
    ([/], [mod] by powers of two) is what [lia] reasons about. *)

From Stdlib Require Import String Ascii.
From stdpp Require Import base list.
From Stdlib Require Import ZArith Lia.
From S2P Require Import Prelude.
Open Scope Z_scope.

(** ** Code points and code units *)

Definition is_high (u : Z) : bool := (0xD800 <=? u) && (u <? 0xDC00).
Definition is_low (u : Z) : bool := (0xDC00 <=? u) && (u <? 0xE000).

(** A Unicode scalar value: a code point that is not a surrogate. *)
Definition scalar_ok (c : Z) : bool :=
  (0 <=? c) && (c <? 0x110000) && negb ((0xD800 <=? c) && (c <? 0xE000)).

Definition unit_ok (u : Z) : bool := (0 <=? u) && (u <? 0x10000).

(** A code point encoded in UTF-16: one unit, or a surrogate pair. *)
Definition utf16_of_cp (c : Z) : jsstr :=
  if c <? 0x10000 then [c]
  else [0xD800 + (c - 0x10000) / 1024; 0xDC00 + (c - 0x10000) mod 1024].

(** The code points of a JavaScript string, read as [String.prototype
    [Symbol.iterator]] and the URI functions read it: a high surrogate
    followed by a low one is a pair, any other surrogate is lone. *)
Inductive scalar := Cp (c : Z) | Lone (u : Z).

Fixpoint utf16_decode (s : jsstr) : list scalar :=
  match s with
  | [] => []
  | u :: rest =>
      if is_high u then
        match rest with
        | u2 :: rest' =>
            if is_low u2 then
              Cp (0x10000 + (u - 0xD800) * 1024 + (u2 - 0xDC00)) :: utf16_decode rest'
            else Lone u :: utf16_decode rest
        | [] => [Lone u]
        end
      else if is_low u then Lone u :: utf16_decode rest
      else Cp u :: utf16_decode rest
  end.

Definition well_formed (s : jsstr) : bool :=
  forallb (fun x => match x with Cp _ => true | Lone _ => false end) (utf16_decode s).

(** ** UTF-8 *)

Definition utf8_encode_cp (c : Z) : list Z :=
  if c <? 0x80 then [c]
  else if c <? 0x800 then [0xC0 + c / 64; 0x80 + c mod 64]
  else if c <? 0x10000 then
    [0xE0 + c / 4096; 0x80 + (c / 64) mod 64; 0x80 + c mod 64]
  else [0xF0 + c / 262144; 0x80 + (c / 4096) mod 64;
        0x80 + (c / 64) mod 64; 0x80 + c mod 64].

(** UTF-8 decoding of well-formed text; an ill-formed lead byte or a
    truncated sequence gives U+FFFD.  It is used for the source file's
    literals and to read back what [to_utf8] wrote. *)
Fixpoint utf8_decode (bs : list Z) : list Z :=
  match bs with
  | [] => []
  | b0 :: rest =>
      if b0 <? 0x80 then b0 :: utf8_decode rest
      else if b0 <? 0xC0 then 0xFFFD :: utf8_decode rest
      else if b0 <? 0xE0 then
        match rest with
        | b1 :: r => ((b0 - 0xC0) * 64 + (b1 - 0x80)) :: utf8_decode r
        | _ => [0xFFFD]
        end
      else if b0 <? 0xF0 then
        match rest with
        | b1 :: b2 :: r =>
            ((b0 - 0xE0) * 4096 + (b1 - 0x80) * 64 + (b2 - 0x80)) :: utf8_decode r
        | _ => [0xFFFD]
        end
      else
        match rest with
        | b1 :: b2 :: b3 :: r =>
            ((b0 - 0xF0) * 262144 + (b1 - 0x80) * 4096 + (b2 - 0x80) * 64
             + (b3 - 0x80)) :: utf8_decode r
        | _ => [0xFFFD]
        end
  end.

(** [Buffer.from(s, "utf-8")], which [writeFileSync] applies to a string:
    lone surrogates become U+FFFD. *)
Definition to_utf8 (s : jsstr) : list Z :=
  flat_map (fun x => match x with
                     | Cp c => utf8_encode_cp c
                     | Lone _ => utf8_encode_cp 0xFFFD
                     end) (utf16_decode s).

(** ** Literals of the source file *)

Definition bytes_of_string (s : string) : list Z :=
  map (fun a => Z.of_N (N_of_ascii a)) (list_ascii_of_string s).

(** The JavaScript string a literal of [generate.mjs] denotes. *)
Definition lit (s : string) : jsstr :=
  flat_map utf16_of_cp (utf8_decode (bytes_of_string s)).

(** The code unit of a one-character literal. *)
Definition unit_of (s : string) : Z :=
  match lit s with [u] => u | _ => 0 end.

(** A template text of the source whose double quotes (U+0022) are
    written as backquotes, which the script's template literals cannot
    contain unescaped. *)
Definition tpl (s : string) : jsstr :=
  map (fun c => if c =? unit_of "`" then 0x22 else c) (lit s).

(** ** Lemmas *)

Lemma scalar_ok_spec c :
  scalar_ok c = true <-> 0 <= c < 0x110000 /\ ~ (0xD800 <= c < 0xE000).
Proof.
  unfold scalar_ok. rewrite !andb_true_iff, negb_true_iff, andb_false_iff.
  rewrite Z.leb_le, Z.ltb_lt, Z.leb_gt, Z.ltb_ge. lia.
Qed.

Lemma utf8_decode_encode_cp c rest :
  scalar_ok c = true ->
  utf8_decode (utf8_encode_cp c ++ rest) = c :: utf8_decode rest.
Proof.
  intros Hc%scalar_ok_spec. unfold utf8_encode_cp.
  Z.div_mod_to_equations. zcase; cbn [utf8_decode app]; zcase; f_equal; lia.
Qed.

Lemma utf8_decode_encode cps :
  forallb scalar_ok cps = true ->
  utf8_decode (flat_map utf8_encode_cp cps) = cps.
Proof.
  induction cps as [|c cps IH]; simpl; [done|].
  intros [Hc Hs]%andb_prop. by rewrite utf8_decode_encode_cp, IH.
Qed.

Lemma utf16_decode_of_cp c rest :
  scalar_ok c = true ->
  utf16_decode (utf16_of_cp c ++ rest) = Cp c :: utf16_decode rest.
Proof.
  intros Hc%scalar_ok_spec. unfold utf16_of_cp.
  Z.div_mod_to_equations. zcase; cbn [utf16_decode app]; unfold is_high, is_low;
    zcase; cbn [andb]; zcase; repeat f_equal; lia.
Qed.

Lemma utf16_decode_encode cps :
  forallb scalar_ok cps = true ->
  utf16_decode (flat_map utf16_of_cp cps) = map Cp cps.
Proof.
  induction cps as [|c cps IH]; simpl; [done|].
  intros [Hc Hs]%andb_prop. by rewrite utf16_decode_of_cp, IH.
Qed.

(** The code units a scalar of [utf16_decode] was read from. *)
Definition scalar_units (x : scalar) : jsstr :=
  match x with Cp c => utf16_of_cp c | Lone u => [u] end.

Definition scalar_valid (x : scalar) : bool :=
  match x with Cp c => scalar_ok c | Lone u => unit_ok u end.

(** Strong induction on the length of a list, for the functions that
    consume two elements at a time. *)
Lemma list_len_ind {A} (P : list A -> Prop) :
  (forall l, (forall l', (length l' < length l)%nat -> P l') -> P l) -> forall l, P l.
Proof.
  intros H l. remember (length l) as n eqn:E. revert l E.
  induction n as [n IH] using lt_wf_ind. intros l ->. apply H.
  intros l' Hl'. by apply (IH (length l')).
Qed.

Lemma unit_ok_spec u : unit_ok u = true <-> 0 <= u < 0x10000.
Proof. unfold unit_ok. rewrite andb_true_iff, Z.leb_le, Z.ltb_lt. lia. Qed.

(** The facts the decoder's branches need, as propositions. *)
Ltac unicode_facts :=
  repeat match goal with
  | H : unit_ok _ = true |- _ => apply unit_ok_spec in H
  | H : forallb _ (_ :: _) = true |- _ => apply andb_prop in H as [? ?]
  | |- context [scalar_ok ?c] =>
      let E := fresh in destruct (scalar_ok c) eqn:E;
      [|apply not_true_iff_false in E; rewrite scalar_ok_spec in E]
  | |- context [unit_ok ?c] =>
      let E := fresh in destruct (unit_ok c) eqn:E;
      [|apply not_true_iff_false in E; rewrite unit_ok_spec in E]
  end.

(** One step of [utf16_decode]: the first scalar and the units it used. *)
Lemma utf16_decode_step u rest :
  unit_ok u = true -> forallb unit_ok rest = true ->
  exists x r, utf16_decode (u :: rest) = x :: utf16_decode r /\
              scalar_units x ++ r = u :: rest /\ scalar_valid x = true.
Proof.
  intros Hu Hr. cbn [utf16_decode]. unfold is_high, is_low.
  destruct rest as [|u2 rest']; unicode_facts; zcase; cbn [andb].
  all: first [ exists (Lone u), []; split; [reflexivity|]
             | eexists (Lone u), _; split; [reflexivity|]
             | eexists (Cp u), _; split; [reflexivity|]
             | eexists (Cp _), rest'; split; [reflexivity|] ];
       cbn [scalar_units scalar_valid app].
  all: unicode_facts; unfold utf16_of_cp; zcase; split; try done;
       try (exfalso; lia); Z.div_mod_to_equations; cbn [app]; repeat f_equal; lia.
Qed.

Lemma utf16_decode_units s :
  forallb unit_ok s = true ->
  flat_map scalar_units (utf16_decode s) = s /\
  forallb scalar_valid (utf16_decode s) = true.
Proof.
  induction s as [[|u rest] IH] using list_len_ind; [done|]. intros Hs.
  cbn [forallb] in Hs. apply andb_prop in Hs as [Hu Hr].
  destruct (utf16_decode_step u rest Hu Hr) as (x & r & -> & Hx & Hv).
  assert (Hlen : (length r < length (u :: rest))%nat).
  { rewrite <- Hx, length_app.
    destruct x as [c|u0]; [unfold scalar_units, utf16_of_cp; destruct (c <? 65536)|];
      simpl; lia. }
  assert (Hr' : forallb unit_ok r = true).
  { assert (forallb unit_ok (scalar_units x ++ r) = true) as Hall
      by (rewrite Hx; cbn; by rewrite Hu, Hr).
    rewrite forallb_app in Hall. by apply andb_prop in Hall as []. }
  destruct (IH r Hlen Hr') as [IH1 IH2].
  cbn [flat_map forallb]. rewrite IH1, IH2, Hv. done.
Qed.

(** A well-formed string is the UTF-16 encoding of its code points. *)
Lemma well_formed_cps s :
  forallb unit_ok s = true -> well_formed s = true ->
  exists cps, utf16_decode s = map Cp cps /\ forallb scalar_ok cps = true /\
              flat_map utf16_of_cp cps = s.
Proof.
  intros Hu Hw. destruct (utf16_decode_units s Hu) as [Hs Hv]. unfold well_formed in Hw.
  remember (utf16_decode s) as xs eqn:Exs. rewrite <- Hs. clear Exs Hs Hu s.
  induction xs as [|[c|u] xs IH]; simpl in *.
  - by exists [].
  - apply andb_prop in Hv as [Hc Hv].
    destruct (IH Hw Hv) as (cps & E & Hok & Hf).
    subst xs. exists (c :: cps). simpl. rewrite Hc, Hok, Hf. done.
  - done.
Qed.

(** [readFileSync(path, "utf-8")] on bytes [to_utf8] wrote. *)
Definition from_utf8 (bs : list Z) : jsstr := flat_map utf16_of_cp (utf8_decode bs).

Lemma to_utf8_cps s cps :
  utf16_decode s = map Cp cps -> to_utf8 s = flat_map utf8_encode_cp cps.
Proof.
  unfold to_utf8. intros ->. induction cps as [|c cps IH]; simpl; [done|]. by rewrite IH.
Qed.

(** Writing a well-formed string as UTF-8 and reading it back gives the
    string. *)
Lemma from_to_utf8 s :
  forallb unit_ok s = true -> well_formed s = true -> from_utf8 (to_utf8 s) = s.
Proof.
  intros Hu Hw. destruct (well_formed_cps s Hu Hw) as (cps & E & Hok & Hf).
  unfold from_utf8. by rewrite (to_utf8_cps s cps E), utf8_decode_encode.
Qed.

Lemma utf8_encode_cp_bytes c :
  scalar_ok c = true -> Forall (fun b => 0 <= b < 256) (utf8_encode_cp c).
Proof.
  intros Hc%scalar_ok_spec. unfold utf8_encode_cp.
  Z.div_mod_to_equations. zcase; repeat constructor; lia.
Qed.

(** ** Properties *)

(** [fs.writeFileSync(.., "utf-8")] writes bytes: the UTF-8
    encoding of any string of code units, lone surrogates included (each
    becomes U+FFFD), is a list of values in [0, 256). *)
Theorem to_utf8_bytes s :
  forallb unit_ok s = true -> Forall (fun b => 0 <= b < 256) (to_utf8 s).
Proof.
  intros Hu. destruct (utf16_decode_units s Hu) as [_ Hv]. unfold to_utf8.
  induction (utf16_decode s) as [|x xs IH]; cbn [flat_map forallb] in *; [constructor|].
  apply andb_prop in Hv as [Hx Hv]. apply Forall_app. split; [|auto].
  destruct x; apply utf8_encode_cp_bytes; [done|reflexivity].
Qed.

Lemma to_utf8_bytes_witness :
  forallb unit_ok [0xD800; 0x41] = true /\ Forall (fun b => 0 <= b < 256) (to_utf8 [0xD800; 0x41]).
Proof.
  assert (H : forallb unit_ok [0xD800; 0x41] = true) by reflexivity.
  split; [exact H|]. exact (to_utf8_bytes _ H).
Defined.
