(* ===== verification/Decode.v ===== *)
(** * Decode: the text [readFileSync(INPUT, "utf-8")] returns (line 30)

    Node decodes the bytes of [questions.json] with the UTF-8 decoder of
    the WHATWG Encoding standard, in its replacement mode: a byte that
    cannot start or continue a sequence yields U+FFFD and, when it broke
    an open sequence, is read again as the start of a new one; a sequence
    left open at the end yields U+FFFD.  A byte-order mark is not removed.
    [decode_go] is that algorithm, byte by byte, with the decoder's state
    ([bytes needed], [bytes seen], [code point], [lower]/[upper] boundary)
    as the record [dstate] and the code point built with [<<], [|] and
    [&] as the standard writes them.

    [utf8_decode_node_roundtrip] shows it inverts the encoding of
    [writeFileSync] on well-formed text, and [utf8_decode_node_well_formed]
    that whatever the bytes, the text has no lone surrogate: the
    invariant [pending_ok] of the open sequence guarantees each code point
    it completes is a Unicode scalar value. *)

From Stdlib Require Import String.
From stdpp Require Import base list.
From Stdlib Require Import ZArith Lia.
From S2P Require Import Prelude Unicode.
Local Set Warnings "-clear-no-such-hyp".
Open Scope Z_scope.

(** The decoder's state between two bytes. *)
Record dstate := mkD {
  need : nat;     (** bytes needed *)
  seen : nat;     (** bytes seen *)
  cpv : Z;        (** code point so far *)
  lower : Z;      (** lower boundary of the next byte *)
  upper : Z       (** upper boundary of the next byte *)
}.

Definition d0 : dstate := mkD 0 0 0 0x80 0xBF.

Definition u_replacement : Z := 0xFFFD.

(** A byte read with no sequence open: the units it yields and the next
    state. *)
Definition lead (b : Z) : jsstr * dstate :=
  if b <=? 0x7F then ([b], d0)
  else if (0xC2 <=? b) && (b <=? 0xDF) then ([], mkD 1 0 (Z.land b 0x1F) 0x80 0xBF)
  else if (0xE0 <=? b) && (b <=? 0xEF) then
    ([], mkD 2 0 (Z.land b 0xF) (if b =? 0xE0 then 0xA0 else 0x80)
             (if b =? 0xED then 0x9F else 0xBF))
  else if (0xF0 <=? b) && (b <=? 0xF4) then
    ([], mkD 3 0 (Z.land b 0x7) (if b =? 0xF0 then 0x90 else 0x80)
             (if b =? 0xF4 then 0x8F else 0xBF))
  else ([u_replacement], d0).

(** The decoder on the rest of the stream, in state [st]. *)
Fixpoint decode_go (st : dstate) (bs : list Z) : jsstr :=
  match bs with
  | [] => if Nat.eqb (need st) 0 then [] else [u_replacement]
  | b :: bs' =>
      if Nat.eqb (need st) 0 then let '(out, st') := lead b in out ++ decode_go st' bs'
      else if (b <? lower st) || (upper st <? b) then
        u_replacement :: (let '(out, st') := lead b in out ++ decode_go st' bs')
      else
        let c := Z.lor (Z.shiftl (cpv st) 6) (Z.land b 0x3F) in
        if Nat.eqb (S (seen st)) (need st) then utf16_of_cp c ++ decode_go d0 bs'
        else decode_go (mkD (need st) (S (seen st)) c 0x80 0xBF) bs'
  end.

(** [buffer.toString("utf-8")]. *)
Definition utf8_decode_node (bs : list Z) : jsstr := decode_go d0 bs.

Definition byte (b : Z) : Prop := 0 <= b < 256.

(** ** Bit operations *)

Lemma land_1F b : Z.land b 0x1F = b mod 32.
Proof. change 0x1F with (Z.ones 5). by rewrite Z.land_ones by lia. Qed.

Lemma land_F b : Z.land b 0xF = b mod 16.
Proof. change 0xF with (Z.ones 4). by rewrite Z.land_ones by lia. Qed.

Lemma land_7 b : Z.land b 0x7 = b mod 8.
Proof. change 0x7 with (Z.ones 3). by rewrite Z.land_ones by lia. Qed.

Lemma land_3F b : Z.land b 0x3F = b mod 64.
Proof. change 0x3F with (Z.ones 6). by rewrite Z.land_ones by lia. Qed.

(** [(x << 6) | y] adds [y] when [y] fits in six bits. *)
Lemma shl6_lor x y : 0 <= y < 64 -> Z.lor (Z.shiftl x 6) y = x * 64 + y.
Proof.
  intros Hy. rewrite Z.shiftl_mul_pow2 by lia. change (2 ^ 6) with 64.
  assert (H0 : Z.land (x * 64) y = 0).
  { rewrite <- (Z.mod_small y 64) by lia. rewrite <- (land_3F y), (Z.land_comm y), Z.land_assoc, (land_3F (x * 64)).
    rewrite Z.mod_mul by lia. apply Z.land_0_l. }
  rewrite <- Z.lxor_lor by exact H0. symmetry. by apply Z.add_nocarry_lxor.
Qed.

(** The code point after one more continuation byte. *)
Lemma cont_value x b : 0x80 <= b <= 0xBF ->
  Z.lor (Z.shiftl x 6) (Z.land b 0x3F) = x * 64 + (b - 0x80).
Proof. intros Hb. rewrite land_3F, shl6_lor by zlia. f_equal. zlia. Qed.

(** ** The decoder on the encoding of one code point *)

Ltac dsimpl := cbn [app decode_go need seen cpv lower upper Nat.eqb d0 fst snd andb orb].
Ltac dstep := dsimpl; unfold lead; zcase; dsimpl; zcase; dsimpl.

Lemma decode_1 c rest : 0 <= c < 0x80 ->
  decode_go d0 (c :: rest) = [c] ++ decode_go d0 rest.
Proof. intros Hc. dstep. done. Qed.

Lemma decode_2 q r rest : 2 <= q < 32 -> 0 <= r < 64 ->
  decode_go d0 ([0xC0 + q; 0x80 + r] ++ rest) = utf16_of_cp (q * 64 + r) ++ decode_go d0 rest.
Proof.
  intros Hq Hr. dstep. rewrite cont_value, land_1F by lia. do 2 f_equal. zlia.
Qed.

Lemma decode_3 q m r rest : 0 <= q < 16 -> 0 <= m < 64 -> 0 <= r < 64 ->
  (q = 0 -> 32 <= m) -> (q = 13 -> m < 32) ->
  decode_go d0 ([0xE0 + q; 0x80 + m; 0x80 + r] ++ rest) =
    utf16_of_cp ((q * 64 + m) * 64 + r) ++ decode_go d0 rest.
Proof.
  intros Hq Hm Hr H0 H13. dstep. dstep.
  all: rewrite !cont_value, land_F by lia; do 2 f_equal; zlia.
Qed.

Lemma decode_4 q m n r rest : 0 <= q <= 4 -> 0 <= m < 64 -> 0 <= n < 64 -> 0 <= r < 64 ->
  (q = 0 -> 16 <= m) -> (q = 4 -> m < 16) ->
  decode_go d0 ([0xF0 + q; 0x80 + m; 0x80 + n; 0x80 + r] ++ rest) =
    utf16_of_cp (((q * 64 + m) * 64 + n) * 64 + r) ++ decode_go d0 rest.
Proof.
  intros Hq Hm Hn Hr H0 H4. dstep. dstep. dstep.
  all: rewrite !cont_value, land_7 by lia; do 2 f_equal; zlia.
Qed.

(** Decoding the UTF-8 bytes of a scalar value gives back its UTF-16
    units. *)
Lemma decode_encode_cp c rest : scalar_ok c = true ->
  decode_go d0 (utf8_encode_cp c ++ rest) = utf16_of_cp c ++ decode_go d0 rest.
Proof.
  intros Hc%scalar_ok_spec. unfold utf8_encode_cp. zcase.
  - cbn [app]. rewrite decode_1 by lia. unfold utf16_of_cp. by zcase.
  - rewrite decode_2 by zlia. do 2 f_equal. zlia.
  - rewrite decode_3 by zlia. do 2 f_equal. zlia.
  - rewrite decode_4 by zlia. do 2 f_equal. zlia.
Qed.

Lemma decode_encode_cps cps : forallb scalar_ok cps = true ->
  decode_go d0 (flat_map utf8_encode_cp cps) = flat_map utf16_of_cp cps.
Proof.
  induction cps as [|c cps IH]; cbn [flat_map forallb]; [done|].
  intros [Hc Hs]%andb_prop. by rewrite decode_encode_cp, IH.
Qed.

(** ** The open sequence always completes to a scalar value *)

(** With [k] bytes still to read after the next one, any next byte
    within the boundaries followed by any [k] continuation bytes
    completes a Unicode scalar value. *)
Definition pending_ok (st : dstate) : Prop :=
  need st = 0%nat \/
  ((seen st < need st)%nat /\ 0x80 <= lower st /\ upper st <= 0xBF /\
   forall b t, lower st <= b <= upper st -> 0 <= t < 64 ^ Z.of_nat (need st - seen st - 1) ->
     scalar_ok ((cpv st * 64 + (b - 0x80)) * 64 ^ Z.of_nat (need st - seen st - 1) + t) = true).

Lemma pending_ok_d0 : pending_ok d0.
Proof. by left. Qed.

Lemma scalar_ok_intro c : 0 <= c < 0x110000 -> ~ (0xD800 <= c < 0xE000) -> scalar_ok c = true.
Proof. intros. by apply scalar_ok_spec. Qed.

(** The cases of [lead_ok]: an ASCII byte, an error, or the start of a
    sequence whose completions are scalar values. *)
Ltac lead_case b :=
  first
  [ exists [b]; cbn; rewrite app_nil_r; unfold utf16_of_cp; zcase;
    rewrite scalar_ok_intro by lia; split; [done|]; split; [done|]; apply pending_ok_d0
  | exists [u_replacement]; split; [done|]; split; [done|]; apply pending_ok_d0
  | exists []; split; [done|]; split; [done|]; unfold pending_ok; right;
    cbn [need seen cpv lower upper Nat.sub Z.of_nat]; rewrite ?Z.pow_0_r, ?Z.pow_1_r;
    try change (64 ^ 2) with 4096;
    rewrite ?land_1F, ?land_F, ?land_7; split; [lia|]; split; [zcase; lia|];
    split; [zcase; lia|]; intros c t Hc Ht; apply scalar_ok_intro; zcase; zlia ].

(** What a byte read with no open sequence yields. *)
Lemma lead_ok b : byte b ->
  exists cps, forallb scalar_ok cps = true /\ fst (lead b) = flat_map utf16_of_cp cps /\
              pending_ok (snd (lead b)).
Proof. intros Hb. unfold byte in Hb. unfold lead. zcase; cbn [andb fst snd]; lead_case b. Qed.

(** The last byte of a sequence completes a scalar value. *)
Lemma pending_last st b : pending_ok st -> need st <> 0%nat -> lower st <= b <= upper st ->
  S (seen st) = need st -> scalar_ok (cpv st * 64 + (b - 0x80)) = true.
Proof.
  intros [Hn|(Hlt & _ & _ & Hall)] H0 Hb Hs; [done|].
  specialize (Hall b 0 Hb). replace (need st - seen st - 1)%nat with 0%nat in Hall by lia.
  rewrite Z.pow_0_r, Z.mul_1_r, Z.add_0_r in Hall. apply Hall. lia.
Qed.

(** A continuation byte that does not end the sequence keeps it
    completable. *)
Lemma pending_step st b : pending_ok st -> need st <> 0%nat -> lower st <= b <= upper st ->
  S (seen st) <> need st ->
  pending_ok (mkD (need st) (S (seen st)) (cpv st * 64 + (b - 0x80)) 0x80 0xBF).
Proof.
  intros [Hn|(Hlt & Hlo & Hup & Hall)] H0 Hb Hs; [done|]. right. cbn [need seen cpv lower upper].
  destruct (need st - seen st - 1)%nat as [|k] eqn:Ek; [lia|].
  replace (need st - S (seen st) - 1)%nat with k by lia.
  split; [lia|]. split; [lia|]. split; [lia|]. intros b' t Hb' Ht.
  assert (Hp : 0 < 64 ^ Z.of_nat k) by (apply Z.pow_pos_nonneg; lia).
  specialize (Hall b ((b' - 0x80) * 64 ^ Z.of_nat k + t) Hb).
  rewrite Nat2Z.inj_succ, Z.pow_succ_r in Hall by lia.
  replace (((cpv st * 64 + (b - 0x80)) * 64 + (b' - 0x80)) * 64 ^ Z.of_nat k + t) with
    ((cpv st * 64 + (b - 0x80)) * (64 * 64 ^ Z.of_nat k) + ((b' - 0x80) * 64 ^ Z.of_nat k + t)) by ring.
  apply Hall. nia.
Qed.

Lemma decode_go_scalars st bs : pending_ok st -> Forall byte bs ->
  exists cps, forallb scalar_ok cps = true /\ decode_go st bs = flat_map utf16_of_cp cps.
Proof.
  revert st. induction bs as [|b bs IH]; intros st Hst Hbs.
  - cbn. destruct (Nat.eqb (need st) 0); [by exists []|]. by exists [u_replacement].
  - apply Forall_cons in Hbs as [Hb Hbs]. cbn [decode_go].
    destruct (lead_ok b Hb) as (c1 & Hc1 & Ho & Hp). destruct (lead b) as [out st'].
    cbn [fst snd] in Ho, Hp. subst out. destruct (IH st' Hp Hbs) as (c2 & Hc2 & E2).
    destruct (Nat.eqb_spec (need st) 0) as [Hn|Hn].
    { exists (c1 ++ c2). by rewrite forallb_app, Hc1, Hc2, flat_map_app, E2. }
    destruct ((b <? lower st) || (upper st <? b)) eqn:Hr.
    { exists (u_replacement :: c1 ++ c2). cbn [forallb flat_map].
      by rewrite forallb_app, Hc1, Hc2, flat_map_app, E2. }
    apply orb_false_iff in Hr as [Hl%Z.ltb_ge Hu%Z.ltb_ge].
    assert (Hlo : 0x80 <= lower st /\ upper st <= 0xBF) by (destruct Hst as [|(_ & ? & ? & _)]; [done|lia]).
    rewrite cont_value by lia.
    destruct (Nat.eqb_spec (S (seen st)) (need st)) as [Hs|Hs].
    + destruct (IH d0 pending_ok_d0 Hbs) as (c3 & Hc3 & E3).
      exists ((cpv st * 64 + (b - 0x80)) :: c3). cbn [forallb flat_map].
      by rewrite (pending_last st b), Hc3, E3 by (done || lia).
    + apply IH; [|done]. apply pending_step; (done || lia).
Qed.

Lemma utf16_of_cp_units c : scalar_ok c = true -> forallb unit_ok (utf16_of_cp c) = true.
Proof. intros Hc%scalar_ok_spec. unfold utf16_of_cp, unit_ok. zcase; cbn; zcase; zlia. Qed.

(** ** Properties *)

(** C38 (roundtrip): decoding what [writeFileSync(.., "utf-8")] wrote gives
    the text back, for every well-formed string. *)
Theorem utf8_decode_node_roundtrip s :
  forallb unit_ok s = true -> well_formed s = true -> utf8_decode_node (to_utf8 s) = s.
Proof.
  intros Hu Hw. destruct (well_formed_cps s Hu Hw) as (cps & E & Hok & Hf).
  unfold utf8_decode_node. by rewrite (to_utf8_cps s cps E), decode_encode_cps.
Qed.

(** C39 (type): whatever bytes [questions.json] holds, the text
    [readFileSync(.., "utf-8")] returns is made of code units and has no
    lone surrogate. *)
Theorem utf8_decode_node_well_formed bs :
  Forall byte bs ->
  forallb unit_ok (utf8_decode_node bs) = true /\ well_formed (utf8_decode_node bs) = true.
Proof.
  intros Hbs. destruct (decode_go_scalars d0 bs pending_ok_d0 Hbs) as (cps & Hok & E).
  unfold utf8_decode_node. rewrite E. split.
  - apply forallb_flat_map. intros c Hc. apply utf16_of_cp_units.
    rewrite forallb_forall in Hok. by apply Hok.
  - unfold well_formed. rewrite utf16_decode_encode by done. clear E.
    induction cps; cbn in *; [done|]. apply andb_prop in Hok as [_ Hok]. auto.
Qed.

Lemma utf8_decode_node_roundtrip_witness :
  forallb unit_ok (lit "鼻の相談") = true /\ well_formed (lit "鼻の相談") = true /\
  utf8_decode_node (to_utf8 (lit "鼻の相談")) = lit "鼻の相談".
Proof.
  assert (H1 : forallb unit_ok (lit "鼻の相談") = true) by (vm_compute; reflexivity).
  assert (H2 : well_formed (lit "鼻の相談") = true) by (vm_compute; reflexivity).
  split; [exact H1|]. split; [exact H2|]. exact (utf8_decode_node_roundtrip _ H1 H2).
Defined.

(** The UTF-8 form of a surrogate, then [A]: three replacement characters
    and [A]. *)
Definition surrogate_bytes : list Z := [0xED; 0xA0; 0x80; 0x41].

Lemma utf8_decode_node_well_formed_witness :
  Forall byte surrogate_bytes /\
  forallb unit_ok (utf8_decode_node surrogate_bytes) = true /\
  well_formed (utf8_decode_node surrogate_bytes) = true.
Proof.
  assert (H : Forall byte surrogate_bytes)
    by (repeat apply List.Forall_cons; try apply List.Forall_nil; unfold byte; lia).
  split; [exact H|]. exact (utf8_decode_node_well_formed _ H).
Defined.

Example utf8_decode_node_surrogate :
  utf8_decode_node surrogate_bytes = [0xFFFD; 0xFFFD; 0xFFFD; 0x41].
Proof. reflexivity. Qed.
