(* ===== verification/Json.v ===== *)
(** * Json: the values [JSON.parse] returns, as the script reads them

    [loadJson] hands the script whatever [JSON.parse] built from
    [questions.json].  The script then reads those values only through
    JavaScript property access ([x.data], [x.id], ...), truthiness ([!x],
    [x || ''], [&&]) and conversion to a string ([String(s)] in [esc] and
    [clip], template interpolation, [encodeURIComponent]).  This file gives
    the value type and those three operations.

    Numbers are integers ([Z]): [JSON.parse] yields IEEE doubles, and the
    integers below 2^53 in absolute value, which [String] prints in plain
    decimal, are the ones modelled; fractions and exponents are not. *)

From Stdlib Require Import String Ascii DecimalString.
From stdpp Require Import base list.
From Stdlib Require Import ZArith Lia.
From S2P Require Import Prelude Unicode.
Open Scope Z_scope.

Local Unset Elimination Schemes.

Inductive json :=
| JNull
| JBool (b : bool)
| JNum (n : Z)
| JStr (s : jsstr)
| JArr (items : list json)
| JObj (fields : list (jsstr * json)).

Local Set Elimination Schemes.

(** The induction principle of the nested type: the items of an array and
    the values of an object are covered by the hypothesis. *)
Definition json_ind (P : json -> Prop)
  (fnull : P JNull) (fbool : forall b, P (JBool b)) (fnum : forall n, P (JNum n))
  (fstr : forall s, P (JStr s))
  (farr : forall l, Forall P l -> P (JArr l))
  (fobj : forall fs, Forall (fun kv => P (snd kv)) fs -> P (JObj fs)) :
  forall v, P v :=
  fix F v :=
    match v with
    | JNull => fnull
    | JBool b => fbool b
    | JNum n => fnum n
    | JStr s => fstr s
    | JArr l =>
        farr l ((fix G l : Forall P l :=
                   match l with
                   | [] => @List.Forall_nil _ P
                   | x :: l' => @List.Forall_cons _ P x l' (F x) (G l')
                   end) l)
    | JObj fs =>
        fobj fs ((fix G fs : Forall (fun kv => P (snd kv)) fs :=
                    match fs with
                    | [] => @List.Forall_nil _ _
                    | kv :: fs' => @List.Forall_cons _ _ kv fs' (F (snd kv)) (G fs')
                    end) fs)
    end.

(** ** Property access *)

(** [o[k]] on a parsed value.  Only objects have the keys the script
    reads (no prototype of a JSON value has [id], [data], [title], [body]
    or [deleted]); when a key is repeated in the text, [JSON.parse] keeps
    the last value.  [None] is [undefined]. *)
Definition get (v : json) (k : jsstr) : option json :=
  match v with
  | JObj fs => snd <$> find (fun kv => bool_decide (fst kv = k)) (rev fs)
  | _ => None
  end.

(** ** Truthiness *)

Definition truthy_val (v : json) : bool :=
  match v with
  | JNull => false
  | JBool b => b
  | JNum n => negb (n =? 0)
  | JStr s => negb (bool_decide (s = []))
  | JArr _ | JObj _ => true
  end.

(** Truthiness of a property read, [undefined] being falsy. *)
Definition truthy (o : option json) : bool :=
  match o with Some v => truthy_val v | None => false end.

(** [a || d]: [a] when it is truthy, else [d]. *)
Definition js_or (a : option json) (d : json) : json :=
  match a with
  | Some v => if truthy_val v then v else d
  | None => d
  end.

(** ** Conversion to a string *)

Definition num_to_string (n : Z) : jsstr :=
  lit (NilZero.string_of_int (Z.to_int n)).

(** [String(v)]: arrays print as [join(",")] with [null] items empty,
    objects as [[object Object]]. *)
Fixpoint to_string (v : json) : jsstr :=
  match v with
  | JNull => lit "null"
  | JBool true => lit "true"
  | JBool false => lit "false"
  | JNum n => num_to_string n
  | JStr s => s
  | JArr items =>
      (fix join (l : list json) : jsstr :=
         match l with
         | [] => []
         | [x] => match x with JNull => [] | _ => to_string x end
         | x :: l' =>
             (match x with JNull => [] | _ => to_string x end)
               ++ [unit_of ","] ++ join l'
         end) items
  | JObj _ => lit "[object Object]"
  end.

(** ** Lemmas *)

Lemma js_or_truthy a d : truthy a = true -> Some (js_or a d) = a.
Proof. destruct a as [v|]; simpl; [|done]. by intros ->. Qed.

Lemma js_or_falsy a d : truthy a = false -> js_or a d = d.
Proof. destruct a as [v|]; simpl; [|done]. by intros ->. Qed.

Lemma truthy_js_or a d :
  truthy_val (js_or a d) = truthy a || truthy_val d.
Proof. destruct a as [v|]; simpl; [|done]. by destruct (truthy_val v) eqn:E. Qed.

Lemma get_non_object v k :
  (forall fs, v <> JObj fs) -> get v k = None.
Proof. destruct v; simpl; try done. intros H. by destruct (H fields). Qed.

Lemma get_last_binding fs k v :
  get (JObj (fs ++ [(k, v)])) k = Some v.
Proof. simpl. rewrite rev_app_distr. simpl. by case_bool_decide. Qed.

#[export] Hint Rewrite truthy_js_or : js_simpl.
