(* ===== verification/Normalize.v ===== *)
(** * Normalize: which records of [questions.json] become pages

    Lines 79-93 of [generate.mjs] map each raw record to a page record or
    to [null], then keep the page records with an id and a title or body:
    - a falsy record gives [null];
    - a record whose [data] is truthy is a Firestore export (shape A):
      [null] when [data.deleted] is truthy, else the id of the record with
      the title and body of [data];
    - any other record is the hand-written shape (shape B): [null] when its
      own [deleted] is truthy, else its id, title and body;
    - missing or falsy title and body become [''] ([x || '']);
    - the filter keeps [q] when [q], [q.id] and [q.title || q.body] are
      truthy.
    [normalize_one] is the map's callback, [keep] the filter's predicate,
    [normalize] the pipeline.  [Published] is the specification by shapes
    (spec, section 4.2) and [Normalized] its lifting to a sequence that
    keeps the input order; [normalize_refines] shows the code implements
    it, and the theorems after it state the filtering properties of the
    spec's section 8. *)

From Stdlib Require Import String.
From stdpp Require Import base list.
From Stdlib Require Import ZArith Lia.
From S2P Require Import Prelude Unicode Json.
Local Set Warnings "-clear-no-such-hyp".
Open Scope Z_scope.

(** The object [{ id, title, body }] built by the callback; [id] may be
    [undefined], title and body are the values of [x.title || '']. *)
Record question := mkQuestion { qid : option json; qtitle : json; qbody : json }.

Definition k_id : jsstr := lit "id".
Definition k_data : jsstr := lit "data".
Definition k_title : jsstr := lit "title".
Definition k_body : jsstr := lit "body".
Definition k_deleted : jsstr := lit "deleted".

Definition empty_str : json := JStr [].

(** Shape A: [{ id: x.id, title: x.data.title || '', body: x.data.body || '' }]
    unless [x.data.deleted]. *)
Definition shape_a (x d : json) : option question :=
  if truthy (get d k_deleted) then None
  else Some (mkQuestion (get x k_id) (js_or (get d k_title) empty_str)
                        (js_or (get d k_body) empty_str)).

(** Shape B: [{ id: x.id, title: x.title || '', body: x.body || '' }]
    unless [x.deleted]. *)
Definition shape_b (x : json) : option question :=
  if truthy (get x k_deleted) then None
  else Some (mkQuestion (get x k_id) (js_or (get x k_title) empty_str)
                        (js_or (get x k_body) empty_str)).

(** The callback of [.map] (lines 80-92). *)
Definition normalize_one (x : json) : option question :=
  if negb (truthy_val x) then None
  else match get x k_data with
       | Some d => if truthy_val d then shape_a x d else shape_b x
       | None => shape_b x
       end.

(** The predicate of [.filter] (line 93), on a non-null [q]. *)
Definition keep (q : question) : bool :=
  truthy (qid q) && (truthy_val (qtitle q) || truthy_val (qbody q)).

(** [.filter(q => q && ...)]: the [null]s and the rejected records go. *)
Fixpoint select (l : list (option question)) : list question :=
  match l with
  | [] => []
  | None :: l' => select l'
  | Some q :: l' => if keep q then q :: select l' else select l'
  end.

(** [(raw || []).map(..).filter(..)]; [raw] is an array, hence truthy. *)
Definition normalize (raw : list json) : list question :=
  select (map normalize_one raw).

(** ** Specification by shapes *)

(** The page record a raw record publishes, by the record's shape. *)
Inductive Published : json -> question -> Prop :=
| pub_shape_a x d :
    get x k_data = Some d -> truthy_val d = true ->
    truthy (get d k_deleted) = false ->
    truthy (get x k_id) = true ->
    truthy (get d k_title) || truthy (get d k_body) = true ->
    Published x (mkQuestion (get x k_id) (js_or (get d k_title) empty_str)
                            (js_or (get d k_body) empty_str))
| pub_shape_b x :
    truthy_val x = true -> truthy (get x k_data) = false ->
    truthy (get x k_deleted) = false ->
    truthy (get x k_id) = true ->
    truthy (get x k_title) || truthy (get x k_body) = true ->
    Published x (mkQuestion (get x k_id) (js_or (get x k_title) empty_str)
                            (js_or (get x k_body) empty_str)).

(** A sequence of raw records and the page records it publishes, in order. *)
Inductive Normalized : list json -> list question -> Prop :=
| norm_nil : Normalized [] []
| norm_keep x q raw qs :
    Published x q -> Normalized raw qs -> Normalized (x :: raw) (q :: qs)
| norm_skip x raw qs :
    (forall q, ~ Published x q) -> Normalized raw qs -> Normalized (x :: raw) qs.

(** ** Lemmas *)

Lemma truthy_get_data x :
  truthy (get x k_data) = match get x k_data with Some d => truthy_val d | None => false end.
Proof. by destruct (get x k_data). Qed.

Lemma truthy_empty_str : truthy_val empty_str = false.
Proof. reflexivity. Qed.

Lemma keep_mk i t b :
  keep (mkQuestion i (js_or t empty_str) (js_or b empty_str)) = truthy i && (truthy t || truthy b).
Proof. unfold keep. cbn [qid qtitle qbody]. by rewrite !truthy_js_or, truthy_empty_str, !orb_false_r. Qed.

(** The callback and the filter together, on one record. *)
Lemma published_one x q :
  Published x q <-> (exists q', normalize_one x = Some q' /\ keep q' = true /\ q = q').
Proof.
  unfold normalize_one, shape_a, shape_b. split.
  - intros [x' d Hd Hdt Hdel Hid Htb | x' Hx Hd Hdel Hid Htb].
    + rewrite Hd, Hdt, Hdel. assert (truthy_val x' = true) as -> by (by destruct x').
      eexists; split; [done|]. by rewrite keep_mk, Hid, Htb.
    + rewrite Hx. rewrite truthy_get_data in Hd.
      destruct (get x' k_data) as [d|]; [rewrite Hd|]; rewrite Hdel;
        (eexists; split; [done|]); by rewrite keep_mk, Hid, Htb.
  - intros (q' & Hq & Hk & ->). destruct (truthy_val x) eqn:Hx; [|done].
    destruct (get x k_data) as [d|] eqn:Hd; [destruct (truthy_val d) eqn:Hdt|].
    all: destruct (truthy (get _ k_deleted)) eqn:Hdel; simplify_eq/=;
         rewrite keep_mk in Hk; apply andb_prop in Hk as [Hid Htb].
    + by eapply pub_shape_a.
    + apply pub_shape_b; rewrite ?truthy_get_data, ?Hd; auto.
    + apply pub_shape_b; rewrite ?truthy_get_data, ?Hd; auto.
Qed.

Lemma select_app l1 l2 : select (l1 ++ l2) = select l1 ++ select l2.
Proof. induction l1 as [|[q|] l1 IH]; simpl; [done| |done]. by destruct (keep q); rewrite IH. Qed.

Lemma normalize_app r1 r2 : normalize (r1 ++ r2) = normalize r1 ++ normalize r2.
Proof. unfold normalize. by rewrite map_app, select_app. Qed.

Lemma normalize_cons x raw : normalize (x :: raw) = normalize [x] ++ normalize raw.
Proof. apply (normalize_app [_]). Qed.

(** A record publishes [q] exactly when the pipeline, run on it alone,
    returns [[q]]; otherwise it returns nothing. *)
Lemma normalize_single x :
  (exists q, Published x q /\ normalize [x] = [q]) \/
  ((forall q, ~ Published x q) /\ normalize [x] = []).
Proof.
  unfold normalize. simpl.
  destruct (normalize_one x) as [q|] eqn:Hq; [destruct (keep q) eqn:Hk|].
  - left. exists q. split; [|done]. apply published_one. eauto.
  - right. split; [|done]. intros q' (q'' & Hq' & Hk' & ->)%published_one. congruence.
  - right. split; [|done]. intros q' (q'' & Hq' & _)%published_one. congruence.
Qed.

Lemma published_det x q1 q2 : Published x q1 -> Published x q2 -> q1 = q2.
Proof. intros (? & H1 & _ & ->)%published_one (? & H2 & _ & ->)%published_one. congruence. Qed.

(** A record that publishes nothing can be removed from the input. *)
Lemma normalize_skip r1 x r2 :
  (forall q, ~ Published x q) -> normalize (r1 ++ x :: r2) = normalize (r1 ++ r2).
Proof.
  intros Hx. rewrite !normalize_app. f_equal.
  rewrite (normalize_cons x r2). destruct (normalize_single x) as [(q & Hq & _)|[_ ->]].
  - by destruct (Hx q).
  - done.
Qed.

(** ** Properties *)

(** C1 (refinement): the pipeline of lines 79-93 implements the
    specification by shapes: [Normalized raw qs] holds exactly when [qs]
    is what the code computes, so each published page record comes from
    one raw record by the shape rules, in the order of the input, and
    every other record is skipped. *)
Theorem normalize_refines raw qs : Normalized raw qs <-> normalize raw = qs.
Proof.
  split.
  - induction 1 as [|x q raw qs Hp _ IH|x raw qs Hn _ IH]; [done| |];
      rewrite normalize_cons, IH; destruct (normalize_single x) as [(q' & Hq' & ->)|[Hn' ->]].
    + by rewrite (published_det _ _ _ Hp Hq').
    + by destruct (Hn' q).
    + by destruct (Hn q').
    + done.
  - intros <-. induction raw as [|x raw IH]; [constructor|].
    rewrite normalize_cons. destruct (normalize_single x) as [(q & Hq & ->)|[Hn ->]].
    + by constructor.
    + by constructor.
Qed.

(** C2 (safety): a soft-deleted record never reaches the output, in
    either shape: shape A with a truthy [data.deleted], or shape B (no
    truthy [data]) with a truthy [deleted].  Removing it from the input
    leaves the output unchanged. *)
Theorem deleted_never_published r1 x r2 :
  ((exists d, get x k_data = Some d /\ truthy_val d = true /\ truthy (get d k_deleted) = true) \/
   (truthy (get x k_data) = false /\ truthy (get x k_deleted) = true)) ->
  normalize (r1 ++ x :: r2) = normalize (r1 ++ r2).
Proof.
  intros Hdel. apply normalize_skip.
  intros q Hp; destruct Hp as [x d Hd Hdt Hdel' _ _|x _ Hd Hdel' _ _];
    destruct Hdel as [(d' & Hd' & Hdt' & Hdel'')|[Hd' Hdel'']]; simplify_eq; try congruence.
  all: rewrite truthy_get_data in *;
       match goal with H : get _ k_data = Some _ |- _ => rewrite H in * end; congruence.
Qed.

Definition deleted_shape_a : json :=
  JObj [(k_id, JStr (lit "x1"));
        (k_data, JObj [(k_title, JStr (lit "T")); (k_body, JStr (lit "B"));
                       (k_deleted, JBool true)])].

Lemma deleted_never_published_witness :
  normalize ([] ++ deleted_shape_a :: []) = normalize ([] ++ []).
Proof.
  apply deleted_never_published. left.
  eexists; split; [reflexivity|]. split; vm_compute; reflexivity.
Defined.

(** The object the title and body are read from: [data] when it is
    truthy, else the record itself. *)
Definition fields_of (x : json) : json :=
  match get x k_data with Some d => if truthy_val d then d else x | None => x end.

(** C3 (safety): a record with a missing or falsy [id], or whose title
    and body (read from [data] or from the record, by its shape) are both
    missing or empty, never reaches the output. *)
Theorem incomplete_never_published r1 x r2 :
  truthy (get x k_id) = false \/
  (truthy (get (fields_of x) k_title) = false /\ truthy (get (fields_of x) k_body) = false) ->
  normalize (r1 ++ x :: r2) = normalize (r1 ++ r2).
Proof.
  intros Hx. apply normalize_skip. unfold fields_of in Hx.
  intros q Hp. revert Hx. destruct Hp as [x' d Hd Hdt _ Hid Htb|x' _ Hd _ Hid Htb]; intros Hx.
  - rewrite Hd, Hdt in Hx. destruct Hx as [|[Ht Hb]]; [congruence|].
    by rewrite Ht, Hb in Htb.
  - rewrite truthy_get_data in Hd.
    destruct (get x' k_data) as [d|]; [rewrite Hd in Hx|];
      destruct Hx as [|[Ht Hb]]; try congruence; by rewrite Ht, Hb in Htb.
Qed.

Definition no_id_record : json :=
  JObj [(k_title, JStr (lit "T")); (k_body, JStr (lit "B"))].

Lemma incomplete_never_published_witness :
  normalize ([] ++ no_id_record :: []) = normalize ([] ++ []).
Proof. apply incomplete_never_published. left. vm_compute. reflexivity. Defined.

(** C4 (invariant): every page record the pipeline returns comes from a
    record of the input that publishes it by the shape rules, and has a
    truthy id and a truthy title or body; conversely every record that
    publishes a page record has it in the output. *)
Theorem normalize_members raw q :
  In q (normalize raw) <->
  (exists x, In x raw /\ Published x q) /\
  truthy (qid q) = true /\ (truthy_val (qtitle q) || truthy_val (qbody q)) = true.
Proof.
  induction raw as [|x raw IH]; [naive_solver|]. rewrite normalize_cons, in_app_iff, IH.
  destruct (normalize_single x) as [(q' & Hq' & ->)|[Hn ->]].
  - pose proof Hq' as (? & _ & Hk & ->)%published_one. apply andb_prop in Hk.
    split.
    + intros [[<-|[]]|(Hex & Hrest)]; [naive_solver|]. naive_solver.
    + intros [(x' & [<-|Hin] & Hp) Hrest]; [left; left; by eapply published_det|].
      right. naive_solver.
  - split; [naive_solver|]. intros [(x' & [<-|Hin] & Hp) Hrest]; [by destruct (Hn q)|naive_solver].
Qed.

(** The pipeline never returns more page records than there
    are raw records. *)
Theorem normalize_length raw : (length (normalize raw) <= length raw)%nat.
Proof.
  induction raw as [|x raw IH]; [simpl; lia|]. rewrite normalize_cons, length_app.
  destruct (normalize_single x) as [(q & _ & ->)|[_ ->]]; simpl; lia.
Qed.

(** ** What the code does where the spec is silent *)




