(* ===== verification/Escape.v ===== *)
(** * Escape: [esc], the HTML escaping of [generate.mjs] (lines 8-15)

    [esc] converts its argument with [String] and applies five
    [replaceAll] calls in sequence: [&] first, then [<], [>], the double
    quote and ['] become [&amp;], [&lt;], [&gt;], [&quot;] and [&#39;].  Every pattern is
    one code unit, so [replace_all_unit] models [replaceAll] for a
    one-unit pattern: each occurrence, left to right, is replaced.
    [esc_ref] is the one-pass reference (each unit mapped by [esc1]);
    [esc_equiv] shows the chain computes it, which depends on [&] being
    replaced first.  [text_safe] is what the page needs of escaped text,
    and [unesc] is the decoding of the five entities an HTML parser
    applies, with which [esc] round-trips. *)

From Stdlib Require Import String.
From stdpp Require Import base list.
From Stdlib Require Import ZArith Lia.
From S2P Require Import Prelude Unicode Json.
Local Set Warnings "-clear-no-such-hyp".
Open Scope Z_scope.

(** The code units of the five characters. *)
Definition u_amp : Z := Eval cbv in unit_of "&".
Definition u_lt : Z := Eval cbv in unit_of "<".
Definition u_gt : Z := Eval cbv in unit_of ">".
(** The double quote, U+0022. *)
Definition u_quot : Z := 0x22.
Definition u_apos : Z := Eval cbv in unit_of "'".

(** [s.replaceAll(p, r)] for a pattern [p] of one code unit. *)
Fixpoint replace_all_unit (p : Z) (r : jsstr) (s : jsstr) : jsstr :=
  match s with
  | [] => []
  | c :: s' => (if c =? p then r else [c]) ++ replace_all_unit p r s'
  end.

(** [esc] (lines 8-15), on the string [String(s)]. *)
Definition esc (s : jsstr) : jsstr :=
  replace_all_unit u_apos (lit "&#39;")
    (replace_all_unit u_quot (lit "&quot;")
      (replace_all_unit u_gt (lit "&gt;")
        (replace_all_unit u_lt (lit "&lt;")
          (replace_all_unit u_amp (lit "&amp;") s)))).

(** [esc(v)] on a value: [String(v)] first. *)
Definition esc_val (v : json) : jsstr := esc (to_string v).

(** ** One-pass reference *)

Definition esc1 (c : Z) : jsstr :=
  if c =? u_amp then lit "&amp;"
  else if c =? u_lt then lit "&lt;"
  else if c =? u_gt then lit "&gt;"
  else if c =? u_quot then lit "&quot;"
  else if c =? u_apos then lit "&#39;"
  else [c].

Definition esc_ref (s : jsstr) : jsstr := flat_map esc1 s.

(** ** What escaped text guarantees *)

Definition is_special (c : Z) : bool :=
  (c =? u_lt) || (c =? u_gt) || (c =? u_quot) || (c =? u_apos).

(** [strip p t]: [t] without its prefix [p], when it has it. *)
Fixpoint strip (p t : jsstr) : option jsstr :=
  match p, t with
  | [], _ => Some t
  | a :: p', b :: t' => if a =? b then strip p' t' else None
  | _ :: _, [] => None
  end.

(** The entity that starts [t] (after its [&]): its character and the
    rest of the text. *)
Definition entity_at (t : jsstr) : option (Z * jsstr) :=
  match strip (lit "amp;") t with Some r => Some (u_amp, r) | None =>
  match strip (lit "lt;") t with Some r => Some (u_lt, r) | None =>
  match strip (lit "gt;") t with Some r => Some (u_gt, r) | None =>
  match strip (lit "quot;") t with Some r => Some (u_quot, r) | None =>
  match strip (lit "#39;") t with Some r => Some (u_apos, r) | None => None
  end end end end end.

(** Text that can be placed in an element or a quoted attribute: no [<],
    [>], double quote or ['], and every [&] starts one of the five
    entities. *)
Fixpoint text_safe (t : jsstr) : bool :=
  match t with
  | [] => true
  | c :: t' =>
      negb (is_special c) &&
      (if c =? u_amp then bool_decide (is_Some (entity_at t')) else true) &&
      text_safe t'
  end.

(** The decoding of the five entities, as an HTML parser reads the page;
    [fuel] bounds the number of characters decoded. *)
Fixpoint unesc_go (fuel : nat) (t : jsstr) : jsstr :=
  match fuel with
  | O => t
  | S f =>
      match t with
      | [] => []
      | c :: t' =>
          if c =? u_amp then
            match entity_at t' with
            | Some (u, r) => u :: unesc_go f r
            | None => c :: unesc_go f t'
            end
          else c :: unesc_go f t'
      end
  end.

Definition unesc (t : jsstr) : jsstr := unesc_go (length t) t.

(** ** Lemmas *)

Lemma replace_all_unit_flat_map p r s :
  replace_all_unit p r s = flat_map (fun c => if c =? p then r else [c]) s.
Proof. induction s as [|c s IH]; simpl; [done|]. by rewrite IH. Qed.

Lemma esc1_length c : (1 <= length (esc1 c) <= 6)%nat.
Proof. unfold esc1. zcase; simpl; lia. Qed.

(** The five special units and the others, as the case analysis of the
    proofs below sees them. *)
Lemma esc_cases (P : Z -> Prop) :
  P u_amp -> P u_lt -> P u_gt -> P u_quot -> P u_apos ->
  (forall c, c <> u_amp -> c <> u_lt -> c <> u_gt -> c <> u_quot -> c <> u_apos -> P c) ->
  forall c, P c.
Proof.
  intros ? ? ? ? ? Hc c.
  destruct (Z.eq_dec c u_amp) as [->|]; [done|].
  destruct (Z.eq_dec c u_lt) as [->|]; [done|].
  destruct (Z.eq_dec c u_gt) as [->|]; [done|].
  destruct (Z.eq_dec c u_quot) as [->|]; [done|].
  destruct (Z.eq_dec c u_apos) as [->|]; [done|]. by apply Hc.
Qed.

(** Rewrite the tests of a non-special unit against the special ones. *)
Ltac ne_tests :=
  repeat match goal with
  | H : ?c <> ?u |- context [?c =? ?u] => rewrite (proj2 (Z.eqb_neq c u) H)
  end.

Ltac esc_case c :=
  induction c using esc_cases;
  [ vm_compute; reflexivity .. | unfold esc1; repeat (ne_tests; cbn [flat_map app]) ].

Lemma text_safe_esc1 c rest : text_safe (esc1 c ++ rest) = text_safe rest.
Proof. esc_case c. cbn [text_safe]. unfold is_special. ne_tests. reflexivity. Qed.

Lemma unesc_go_esc1 n c rest : unesc_go (S n) (esc1 c ++ rest) = c :: unesc_go n rest.
Proof. esc_case c. cbn [unesc_go]. ne_tests. reflexivity. Qed.

Lemma unesc_go_esc_ref n s : (length s <= n)%nat -> unesc_go n (esc_ref s) = s.
Proof.
  unfold esc_ref. revert n.
  induction s as [|c s IH]; intros [|n] Hn; cbn [flat_map length] in *; try lia.
  - done.
  - done.
  - rewrite unesc_go_esc1, IH by lia. done.
Qed.

(** ** Properties *)

(** C7 (equivalence): the chain of five [replaceAll] calls of [esc]
    computes the one-pass escaping [esc_ref], which maps each unit to its
    entity or to itself; this holds because [&] is replaced first, so the
    [&] of the entities introduced later is never escaped again. *)
Theorem esc_equiv s : esc s = esc_ref s.
Proof.
  unfold esc, esc_ref. rewrite !replace_all_unit_flat_map, !flat_map_flat_map.
  apply flat_map_ext. intros c. esc_case c. reflexivity.
Qed.

(** C8 (safety): the output of [esc] contains no [<], [>], double quote or
    ['], and each of its [&] starts one of the five entities, whatever the
    input. *)
Theorem esc_text_safe s : text_safe (esc s) = true.
Proof.
  rewrite esc_equiv. unfold esc_ref.
  induction s as [|c s IH]; simpl; [done|]. by rewrite text_safe_esc1.
Qed.

(** C9 (roundtrip): decoding the five entities in the output of [esc]
    gives back its input, so the page shows the text the record holds. *)
Theorem esc_roundtrip s : unesc (esc s) = s.
Proof.
  rewrite esc_equiv. unfold unesc. apply unesc_go_esc_ref.
  apply length_flat_map_ge. intros c. apply esc1_length.
Qed.

(** [esc] at least keeps and at most multiplies by six the length. *)
Lemma esc_length s : (length s <= length (esc s) <= 6 * length s)%nat.
Proof.
  rewrite esc_equiv. unfold esc_ref. split.
  - apply length_flat_map_ge. intros c. apply esc1_length.
  - apply length_flat_map_le. intros c. apply esc1_length.
Qed.
