(* ===== verification/Clip.v ===== *)
(** * Clip: [clip], the page description (lines 17-20)

    [clip(s, n)] converts [s] with [String], replaces each maximal run of
    [\s] characters by one space ([replace(/\s+/g, " ")]), trims the
    result, and cuts it to [n] code units followed by an ellipsis when it
    is longer than [n].  [is_ws] is the [\s] class of ECMAScript, which
    [trim] also uses (WhiteSpace and LineTerminator).  [collapse_go] is the
    regex replacement as a scan that remembers whether it is inside a run;
    [norm_ref] is the reference: the words of the text (maximal runs of
    non-space units) joined by single spaces.  Lengths and [slice] count
    UTF-16 code units, as JavaScript does. *)

From Stdlib Require Import String.
From stdpp Require Import base list.
From Stdlib Require Import ZArith Lia.
From S2P Require Import Prelude Unicode Json.
Local Set Warnings "-clear-no-such-hyp".
Open Scope Z_scope.

(** ECMAScript's [\s]: WhiteSpace (tab, vertical tab, form feed, space,
    no-break space, byte order mark and the Zs category) and
    LineTerminator (line feed, carriage return, U+2028, U+2029). *)
Definition is_ws (c : Z) : bool :=
  (c =? 0x09) || (c =? 0x0A) || (c =? 0x0B) || (c =? 0x0C) || (c =? 0x0D) ||
  (c =? 0x20) || (c =? 0xA0) || (c =? 0x1680) ||
  ((0x2000 <=? c) && (c <=? 0x200A)) ||
  (c =? 0x2028) || (c =? 0x2029) || (c =? 0x202F) || (c =? 0x205F) ||
  (c =? 0x3000) || (c =? 0xFEFF).

Definition u_space : Z := Eval cbv in unit_of " ".
Definition u_ellipsis : Z := Eval cbv in unit_of "…".

(** [s.replace(/\s+/g, " ")]: [in_run] tells whether the previous unit
    belonged to a run already replaced. *)
Fixpoint collapse_go (in_run : bool) (s : jsstr) : jsstr :=
  match s with
  | [] => []
  | c :: s' =>
      if is_ws c then
        if in_run then collapse_go true s' else u_space :: collapse_go true s'
      else c :: collapse_go false s'
  end.

Definition collapse_ws (s : jsstr) : jsstr := collapse_go false s.

Fixpoint trim_start (s : jsstr) : jsstr :=
  match s with
  | [] => []
  | c :: s' => if is_ws c then trim_start s' else s
  end.

Definition trim_end (s : jsstr) : jsstr := rev (trim_start (rev s)).

(** [String.prototype.trim]. *)
Definition trim (s : jsstr) : jsstr := trim_end (trim_start s).

(** [clip] (lines 17-20); [t.slice(0, n)] is [take n t]. *)
Definition clip (s : jsstr) (n : nat) : jsstr :=
  let t := trim (collapse_ws s) in
  if (n <? length t)%nat then take n t ++ [u_ellipsis] else t.

(** [clip]'s default bound, [n = 110]. *)
Definition clip_default : nat := 110.

(** ** Reference: words joined by single spaces *)

(** The pieces of [s] between its [\s] units (empty pieces included). *)
Fixpoint split_ws (s : jsstr) : list jsstr :=
  match s with
  | [] => [[]]
  | c :: s' =>
      if is_ws c then [] :: split_ws s'
      else match split_ws s' with
           | w :: ws => (c :: w) :: ws
           | [] => [[c]]
           end
  end.

Definition words (s : jsstr) : list jsstr :=
  filter (fun w => w <> []) (split_ws s).

Definition join_sp (ws : list jsstr) : jsstr :=
  match ws with
  | [] => []
  | w :: ws' => w ++ flat_map (fun w => u_space :: w) ws'
  end.

Definition norm_ref (s : jsstr) : jsstr := join_sp (words s).

(** ** Lemmas *)

Definition nws (c : Z) : bool := negb (is_ws c).

Lemma is_ws_space : is_ws u_space = true.
Proof. reflexivity. Qed.

Lemma trim_start_app a b :
  trim_start (a ++ b) = if bool_decide (trim_start a = []) then trim_start b else trim_start a ++ b.
Proof.
  induction a as [|c a IH]; simpl; [done|].
  destruct (is_ws c); [done|]. by rewrite bool_decide_eq_false_2.
Qed.

Lemma trim_start_nws w : forallb nws w = true -> trim_start w = w.
Proof. destruct w as [|c w]; simpl; [done|]. unfold nws. by destruct (is_ws c). Qed.

Lemma trim_end_app x t :
  trim_end (x ++ t) = if bool_decide (trim_end t = []) then trim_end x else x ++ trim_end t.
Proof.
  unfold trim_end. rewrite rev_app_distr, trim_start_app.
  assert (Hr : forall l : jsstr, rev l = [] <-> l = []).
  { intros l. split; [|by intros ->]. destruct l; simpl; [done|].
    intros H%app_eq_nil. naive_solver. }
  case_bool_decide as H1; case_bool_decide as H2; try done.
  - exfalso. by apply H2, Hr.
  - exfalso. by apply H1, Hr.
  - by rewrite rev_app_distr, rev_involutive.
Qed.

Lemma trim_end_nws w : forallb nws w = true -> trim_end w = w.
Proof.
  intros H. unfold trim_end. rewrite trim_start_nws, rev_involutive; [done|].
  apply forallb_forall. intros c Hc%in_rev. by eapply forallb_forall in H.
Qed.

Lemma starts_collapse_true s :
  trim_start (collapse_go true s) = collapse_go true s.
Proof.
  induction s as [|c s IH]; simpl; [done|].
  destruct (is_ws c) eqn:E; [done|]. simpl. by rewrite E.
Qed.

Lemma trim_start_collapse s : trim_start (collapse_go false s) = collapse_go true s.
Proof.
  destruct s as [|c s]; simpl; [done|].
  destruct (is_ws c) eqn:E; simpl; [by rewrite ?is_ws_space, starts_collapse_true|by rewrite E].
Qed.

Lemma split_ws_nonnil s : exists h t, split_ws s = h :: t.
Proof.
  destruct s as [|c s]; simpl; [eauto|]. destruct (is_ws c); [eauto|].
  destruct (split_ws s); eauto.
Qed.

Lemma split_ws_word w s :
  forallb nws w = true ->
  split_ws (w ++ s) = match split_ws s with h :: t => (w ++ h) :: t | [] => [w] end.
Proof.
  induction w as [|c w IH]; simpl; intros Hw.
  - by destruct (split_ws_nonnil s) as (h & t & ->).
  - apply andb_prop in Hw as [Hc Hw]. unfold nws in Hc. apply negb_true_iff in Hc.
    rewrite Hc, IH by done. by destruct (split_ws_nonnil s) as (h & t & ->).
Qed.

Lemma words_ws c s : is_ws c = true -> words (c :: s) = words s.
Proof. intros Hc. unfold words. simpl. by rewrite Hc. Qed.

Lemma words_word_ws w c s :
  w <> [] -> forallb nws w = true -> is_ws c = true ->
  words (w ++ c :: s) = w :: words s.
Proof.
  intros Hne Hw Hc. unfold words. rewrite split_ws_word by done. simpl. rewrite Hc.
  by rewrite app_nil_r, filter_cons_True.
Qed.

Lemma words_word w : w <> [] -> forallb nws w = true -> words w = [w].
Proof.
  intros Hne Hw. unfold words. rewrite <- (app_nil_r w) at 1.
  rewrite split_ws_word by done. simpl. rewrite app_nil_r. by rewrite filter_cons_True.
Qed.

Lemma words_nonempty s : Forall (fun w => w <> []) (words s).
Proof.
  unfold words. apply Forall_forall. intros w Hw.
  by apply list_elem_of_filter in Hw as [? _].
Qed.

Lemma join_sp_nil ws : Forall (fun w => w <> []) ws -> join_sp ws = [] <-> ws = [].
Proof.
  destruct ws as [|w ws]; simpl; [done|]. intros Hf%Forall_cons. split; [|done].
  intros H%app_eq_nil. naive_solver.
Qed.

Lemma flat_map_sp ws :
  flat_map (fun w => u_space :: w) ws = match ws with [] => [] | _ => u_space :: join_sp ws end.
Proof. by destruct ws. Qed.

Lemma trim_end_space x : trim_end (x ++ [u_space]) = trim_end x.
Proof. by rewrite trim_end_app. Qed.

(** The scan, started after a run or inside a word [w], against the
    reference. *)
Lemma collapse_words s :
  trim_end (collapse_go true s) = norm_ref s /\
  (forall w, w <> [] -> forallb nws w = true ->
             trim_end (w ++ collapse_go false s) = join_sp (words (w ++ s))).
Proof.
  induction s as [|c s [IHt IHf]]; simpl.
  - split; [done|]. intros w Hne Hw. rewrite app_nil_r, trim_end_nws, words_word by done.
    simpl. by rewrite app_nil_r.
  - destruct (is_ws c) eqn:Hc.
    + split; [by unfold norm_ref; rewrite words_ws|].
      intros w Hne Hw. rewrite words_word_ws by done. cbn [join_sp].
      rewrite flat_map_sp, app_snoc_cons, trim_end_app, IHt.
      unfold norm_ref. pose proof (words_nonempty s) as Hn.
      case_bool_decide as Hj.
      * apply join_sp_nil in Hj as ->; [|done]. by rewrite trim_end_space, trim_end_nws, app_nil_r.
      * destruct (words s) as [|w' ws] eqn:Ews; [done|]. by rewrite <- app_assoc.
    + split.
      * unfold norm_ref. change (c :: collapse_go false s) with ([c] ++ collapse_go false s).
        change (c :: s) with ([c] ++ s).
        apply IHf; [done|]. simpl. unfold nws. by rewrite Hc.
      * intros w Hne Hw. rewrite (app_snoc_cons w (collapse_go false s) c), (app_snoc_cons w s c).
        apply IHf; [by destruct w|]. rewrite forallb_app, Hw. simpl. unfold nws. by rewrite Hc.
Qed.

Lemma split_ws_nws s : Forall (fun w => forallb nws w = true) (split_ws s).
Proof.
  induction s as [|c s IH]; simpl; [by repeat constructor|].
  destruct (is_ws c) eqn:Hc; [by constructor|].
  destruct (split_ws s) as [|w ws]; [by repeat constructor; simpl; unfold nws; rewrite Hc|].
  apply Forall_cons in IH as [Hw Hws]. constructor; [|done]. simpl. unfold nws. by rewrite Hc.
Qed.

Lemma words_props s : Forall (fun w => w <> [] /\ forallb nws w = true) (words s).
Proof.
  pose proof (words_nonempty s) as Hn. pose proof (split_ws_nws s) as Hs.
  unfold words in *. apply Forall_forall. intros w Hw.
  split; [by eapply Forall_forall in Hn|].
  apply list_elem_of_filter in Hw as [_ Hw]. by eapply Forall_forall in Hs.
Qed.

Lemma words_join_sp ws :
  Forall (fun w => w <> [] /\ forallb nws w = true) ws -> words (join_sp ws) = ws.
Proof.
  induction ws as [|w ws IH]; [done|]. intros [[Hne Hw] Hws]%Forall_cons.
  cbn [join_sp]. rewrite flat_map_sp. destruct ws as [|w' ws'].
  - rewrite app_nil_r. by apply words_word.
  - rewrite words_word_ws by done. by rewrite IH.
Qed.

(** ** Properties *)

(** C10 (equivalence): [replace(/\s+/g, " ")] followed by [trim], as the
    code computes them, yields the words of the text (its maximal runs of
    non-whitespace units) joined by single spaces. *)
Theorem collapse_trim_equiv s : trim (collapse_ws s) = norm_ref s.
Proof.
  unfold trim, collapse_ws. rewrite trim_start_collapse. apply collapse_words.
Qed.

(** C11 (functional): [clip s n] is the normalised text when it has at
    most [n] code units, and otherwise its first [n] code units followed by
    the ellipsis. *)
Theorem clip_spec s n :
  clip s n = if (n <? length (norm_ref s))%nat then take n (norm_ref s) ++ [u_ellipsis]
             else norm_ref s.
Proof. unfold clip. by rewrite collapse_trim_equiv. Qed.

(** C12 (bounds): the description has at most [n + 1] code units, and
    exactly [n + 1], ending with the ellipsis, when the normalised text is
    longer than [n]. *)
Theorem clip_length s n :
  (length (clip s n) <= n + 1)%nat /\
  ((n < length (norm_ref s))%nat -> length (clip s n) = (n + 1)%nat /\ last (clip s n) = Some u_ellipsis).
Proof.
  rewrite clip_spec. destruct (Nat.ltb_spec n (length (norm_ref s))) as [Hlt|Hge].
  - rewrite length_app, length_take, last_app. simpl. split; [lia|]. intros _. split; [lia|done].
  - split; [lia|]. lia.
Qed.

(** The normalisation of [clip] is idempotent: its result
    has no whitespace but single inner spaces, so normalising it again
    changes nothing. *)
Theorem normalize_text_idempotent s :
  trim (collapse_ws (trim (collapse_ws s))) = trim (collapse_ws s).
Proof.
  rewrite !collapse_trim_equiv.
  change (norm_ref (norm_ref s)) with (join_sp (words (join_sp (words s)))).
  rewrite words_join_sp; [done|].
  apply words_props.
Qed.

(** A body of 119 ASCII letters followed by an emoji (a surrogate pair). *)
Definition emoji_body : jsstr := repeat (unit_of "a") 119 ++ lit "😀".


Lemma clip_length_witness :
  (110 < length (norm_ref emoji_body))%nat /\
  length (clip emoji_body 110) = 111%nat /\ last (clip emoji_body 110) = Some u_ellipsis.
Proof.
  assert (H : (110 < length (norm_ref emoji_body))%nat) by (vm_compute; lia).
  split; [exact H|]. exact (proj2 (clip_length emoji_body 110) H).
Defined.
