(* ===== verification/Uri.v ===== *)
(** * Uri: [encodeURIComponent], as [pageHtml] uses it (lines 39 and 62)

    The canonical URL and the link back to the application put the id
    through [encodeURIComponent].  The runtime function reads its argument
    as code points ([utf16_decode]); a unit of the unreserved set
    [A-Z a-z 0-9 - _ . ! ~ * ' ( )] is kept, any other code point is
    written as the [%XX] escapes (upper-case hexadecimal) of its UTF-8
    bytes, and a lone surrogate throws a [URIError] ([None] here).
    [uri_decode] is the percent-decoding a browser applies to the URL
    (percent escapes to bytes, bytes read as UTF-8); [encode_roundtrip]
    shows that it recovers every well-formed id. *)

From Stdlib Require Import String.
From stdpp Require Import base list.
From Stdlib Require Import ZArith Lia.
From S2P Require Import Prelude Unicode.
Local Set Warnings "-clear-no-such-hyp".
Open Scope Z_scope.

Definition uri_unreserved (c : Z) : bool :=
  ((65 <=? c) && (c <=? 90)) || ((97 <=? c) && (c <=? 122)) ||
  ((48 <=? c) && (c <=? 57)) ||
  existsb (Z.eqb c) (lit "-_.!~*'()").

Definition u_percent : Z := Eval cbv in unit_of "%".

(** An upper-case hexadecimal digit. *)
Definition hex_digit (d : Z) : Z := if d <? 10 then 48 + d else 55 + d.

Definition pct (b : Z) : jsstr := [u_percent; hex_digit (b / 16); hex_digit (b mod 16)].

Definition encode_scalar (x : scalar) : option jsstr :=
  match x with
  | Lone _ => None
  | Cp c => if uri_unreserved c then Some [c] else Some (flat_map pct (utf8_encode_cp c))
  end.

Fixpoint encode_all (xs : list scalar) : option jsstr :=
  match xs with
  | [] => Some []
  | x :: xs' =>
      match encode_scalar x, encode_all xs' with
      | Some e, Some r => Some (e ++ r)
      | _, _ => None
      end
  end.

(** [encodeURIComponent(String(s))]; [None] is the thrown [URIError]. *)
Definition encodeURIComponent (s : jsstr) : option jsstr := encode_all (utf16_decode s).

(** ** Percent-decoding *)

Definition hex_val (h : Z) : option Z :=
  if (48 <=? h) && (h <=? 57) then Some (h - 48)
  else if (65 <=? h) && (h <=? 70) then Some (h - 55)
  else if (97 <=? h) && (h <=? 102) then Some (h - 87)
  else None.

(** The bytes a percent-encoded string stands for. *)
Fixpoint pct_decode (t : jsstr) : option (list Z) :=
  match t with
  | [] => Some []
  | c :: t' =>
      if c =? u_percent then
        match t' with
        | h1 :: h2 :: r =>
            match hex_val h1, hex_val h2, pct_decode r with
            | Some d1, Some d2, Some bs => Some ((d1 * 16 + d2) :: bs)
            | _, _, _ => None
            end
        | _ => None
        end
      else if c <? 0x80 then (fun bs => c :: bs) <$> pct_decode t'
      else None
  end.

Definition uri_decode (t : jsstr) : option jsstr :=
  (fun bs => flat_map utf16_of_cp (utf8_decode bs)) <$> pct_decode t.

(** The units [encodeURIComponent] can output. *)
Definition uri_out (c : Z) : bool := uri_unreserved c || (c =? u_percent).

(** ** Lemmas *)

Lemma hex_val_digit d : 0 <= d < 16 -> hex_val (hex_digit d) = Some d.
Proof. intros Hd. unfold hex_val, hex_digit. zcase; cbn [andb]; zcase; f_equal; lia. Qed.

Lemma pct_decode_pct b rest :
  0 <= b < 256 -> pct_decode (pct b ++ rest) = (fun bs => b :: bs) <$> pct_decode rest.
Proof.
  intros Hb. cbn [pct app pct_decode]. rewrite Z.eqb_refl.
  rewrite !hex_val_digit by (Z.div_mod_to_equations; lia).
  destruct (pct_decode rest); simpl; [|done]. do 2 f_equal. Z.div_mod_to_equations; lia.
Qed.

Lemma pct_decode_bytes bs rest :
  Forall (fun b => 0 <= b < 256) bs ->
  pct_decode (flat_map pct bs ++ rest) = (fun r => bs ++ r) <$> pct_decode rest.
Proof.
  induction bs as [|b bs IH]; intros Hbs; cbn [flat_map app].
  - by destruct (pct_decode rest).
  - apply Forall_cons in Hbs as [Hb Hbs]. rewrite <- app_assoc, pct_decode_pct, IH by done.
    by destruct (pct_decode rest).
Qed.

Lemma unreserved_ascii c : uri_unreserved c = true -> 0 <= c < 0x80 /\ c <> u_percent.
Proof.
  unfold uri_unreserved. intros H.
  apply orb_prop in H as [H|H]; [apply orb_prop in H as [H|H]; [apply orb_prop in H as [H|H]|]|].
  all: try (apply andb_prop in H as [H1 H2]; apply Z.leb_le in H1, H2; unfold u_percent; lia).
  apply existsb_exists in H as (x & Hx & ->%Z.eqb_eq). vm_compute in Hx.
  repeat destruct Hx as [<-|Hx]; try (unfold u_percent; lia).
Qed.

Lemma pct_decode_scalar c e rest :
  scalar_ok c = true -> encode_scalar (Cp c) = Some e ->
  pct_decode (e ++ rest) = (fun r => utf8_encode_cp c ++ r) <$> pct_decode rest.
Proof.
  intros Hc. simpl. destruct (uri_unreserved c) eqn:Hu; intros [= <-].
  - apply unreserved_ascii in Hu as [Hr Hp]. cbn [app pct_decode].
    rewrite (proj2 (Z.eqb_neq _ _) Hp). unfold utf8_encode_cp. zcase. done.
  - apply pct_decode_bytes, utf8_encode_cp_bytes, Hc.
Qed.

Lemma encode_all_cps cps e :
  forallb scalar_ok cps = true -> encode_all (map Cp cps) = Some e ->
  pct_decode e = Some (flat_map utf8_encode_cp cps).
Proof.
  revert e. induction cps as [|c cps IH]; intros e Hok He; cbn [encode_all map forallb flat_map] in *.
  - by injection He as <-.
  - apply andb_prop in Hok as [Hc Hok].
    destruct (encode_scalar (Cp c)) as [e1|] eqn:E1; [|done].
    destruct (encode_all (map Cp cps)) as [r|] eqn:Er; [|done]. injection He as <-.
    rewrite (pct_decode_scalar c e1 r Hc E1), (IH r Hok eq_refl). reflexivity.
Qed.

Lemma encode_all_some xs :
  forallb (fun x => match x with Cp _ => true | Lone _ => false end) xs = true ->
  is_Some (encode_all xs).
Proof.
  induction xs as [|[c|u] xs IH]; simpl; [eauto|intros Hw|done].
  destruct (IH Hw) as [r ->]. destruct (uri_unreserved c); eauto.
Qed.

(** ** Properties *)

(** C14 (roundtrip): [encodeURIComponent] succeeds on every well-formed
    id, and percent-decoding its output gives the id back; so the
    canonical URL of a page names the id exactly. *)
Theorem encode_roundtrip s :
  forallb unit_ok s = true -> well_formed s = true ->
  exists e, encodeURIComponent s = Some e /\ uri_decode e = Some s.
Proof.
  intros Hu Hw. destruct (well_formed_cps s Hu Hw) as (cps & E & Hok & Hf).
  unfold encodeURIComponent. rewrite E.
  destruct (encode_all_some (map Cp cps)) as [e He]; [by rewrite <- E|].
  exists e. split; [done|]. unfold uri_decode.
  rewrite (encode_all_cps cps e Hok He). simpl. by rewrite utf8_decode_encode, Hf.
Qed.

Definition id_abc : jsstr := lit "abc".

Lemma encode_roundtrip_witness :
  exists e, encodeURIComponent id_abc = Some e /\ uri_decode e = Some id_abc.
Proof. apply encode_roundtrip; vm_compute; reflexivity. Defined.

(** [encodeURIComponent] throws exactly on the strings that
    hold a lone surrogate. *)
Theorem encode_error s : encodeURIComponent s = None <-> well_formed s = false.
Proof.
  unfold encodeURIComponent, well_formed. induction (utf16_decode s) as [|[c|u] xs IH]; simpl.
  - done.
  - rewrite <- IH. destruct (uri_unreserved c), (encode_all xs); naive_solver.
  - done.
Qed.

Lemma hex_digit_out d : 0 <= d < 16 -> uri_out (hex_digit d) = true.
Proof.
  intros Hd. unfold uri_out, uri_unreserved, hex_digit.
  destruct (Z.ltb_spec d 10).
  - assert ((48 <=? 48 + d) && (48 + d <=? 57) = true) as -> by (apply andb_true_intro; lia).
    by rewrite !orb_true_r.
  - assert ((65 <=? 55 + d) && (55 + d <=? 90) = true) as -> by (apply andb_true_intro; lia).
    done.
Qed.

Lemma pct_out b : 0 <= b < 256 -> forallb uri_out (pct b) = true.
Proof.
  intros Hb. unfold pct. cbn [forallb].
  rewrite !hex_digit_out by (Z.div_mod_to_equations; lia). reflexivity.
Qed.

(** C15 (safety): every unit of a successful [encodeURIComponent] of a
    string of code units is an unreserved character or [%]: no slash,
    space, quote, [<] or [&]. *)
Theorem encode_charset s e :
  forallb unit_ok s = true -> encodeURIComponent s = Some e -> forallb uri_out e = true.
Proof.
  intros Hu. destruct (utf16_decode_units s Hu) as [_ Hv]. unfold encodeURIComponent.
  revert e Hv. induction (utf16_decode s) as [|x xs IH]; intros e Hv He;
    cbn [encode_all] in He; cbn [forallb] in Hv.
  - by injection He as <-.
  - apply andb_prop in Hv as [Hx Hv].
    destruct (encode_scalar x) as [e1|] eqn:E1; [|done].
    destruct (encode_all xs) as [r|]; [|done]. injection He as <-.
    rewrite forallb_app, (IH r Hv eq_refl), andb_true_r.
    destruct x as [c|u]; cbn [encode_scalar scalar_valid] in E1, Hx; [|done].
    destruct (uri_unreserved c) eqn:Hc; injection E1 as <-.
    + simpl. unfold uri_out. by rewrite Hc.
    + apply forallb_flat_map. intros b Hb. apply pct_out.
      pose proof (utf8_encode_cp_bytes c Hx) as HB. rewrite Forall_forall in HB.
      apply HB. by apply list_elem_of_In.
Qed.

Lemma encode_charset_witness : forallb uri_out (lit "a%20b") = true.
Proof. apply (encode_charset (lit "a b")); vm_compute; reflexivity. Defined.
