(* ===== verification/JsonParse.v ===== *)
(** * JsonParse: [JSON.parse(raw)] (line 31)

    [loadJson] hands the decoded text of [questions.json] to [JSON.parse].
    This file is that parser on strings of UTF-16 code units, following
    the JSON grammar of ECMA-404 as [JSON.parse] accepts it: the four
    whitespace characters, the literals [true], [false] and [null],
    strings with a backslash escape of a double quote, a backslash, a
    slash, b, f, n, r or t, or four hex digits after u, and no raw control
    character, numbers [-?(0|[1-9][0-9]* )(.[0-9]+)?([eE][+-]?[0-9]+)?],
    arrays and objects (a repeated key is kept, and [Json.get] reads its
    last value, as the object [JSON.parse] builds holds the last one).

    Numbers are [Z] in the model: a number with a fraction or an exponent,
    or beyond 2^53 (where doubles stop being exact), is reported as
    [PUnsupported] rather than given a wrong value.

    Arrays and objects nest, so [parse_value], [parse_items] and
    [parse_members] recurse on a suffix of their input, not a subterm:
    they take fuel, and a separate [POutOfFuel] result keeps running out
    of fuel apart from a syntax error.  [json_parse] gives them twice the
    length of the text plus one, and [json_parse_terminates] shows that is
    always enough. *)

From Stdlib Require Import String.
From stdpp Require Import base list.
From Stdlib Require Import ZArith Lia.
From S2P Require Import Prelude Unicode Json Escape Uri.
Local Set Warnings "-clear-no-such-hyp".
Open Scope Z_scope.

(** ** Results *)

Inductive perr := PSyntax | PUnsupported | POutOfFuel.

(** A parse of a prefix: the value and the rest of the text, or an error. *)
Inductive pres (A : Type) := Parsed (a : A) (rest : jsstr) | PFail (e : perr).
Arguments Parsed {A} a rest.
Arguments PFail {A} e.

(** What [JSON.parse] does with the whole text. *)
Inductive parse_result := ParseOk (v : json) | ParseError (e : perr).

(** ** Characters *)

Definition c_quote : Z := 0x22.
Definition c_bslash : Z := 0x5C.
Definition c_comma : Z := 0x2C.
Definition c_colon : Z := 0x3A.
Definition c_lbrack : Z := 0x5B.
Definition c_rbrack : Z := 0x5D.
Definition c_lbrace : Z := 0x7B.
Definition c_rbrace : Z := 0x7D.
Definition c_minus : Z := 0x2D.
Definition c_plus : Z := 0x2B.
Definition c_dot : Z := 0x2E.
Definition c_zero : Z := 0x30.
Definition c_u : Z := 0x75.

Definition lit_true : jsstr := Eval cbv in lit "true".
Definition lit_false : jsstr := Eval cbv in lit "false".
Definition lit_null : jsstr := Eval cbv in lit "null".

(** Space, tab, line feed and carriage return. *)
Definition is_json_ws (c : Z) : bool :=
  (c =? 0x20) || (c =? 0x09) || (c =? 0x0A) || (c =? 0x0D).

Fixpoint skip_ws (s : jsstr) : jsstr :=
  match s with
  | c :: s' => if is_json_ws c then skip_ws s' else s
  | [] => []
  end.

Definition is_digit (c : Z) : bool := (0x30 <=? c) && (c <=? 0x39).

(** The longest run of digits at the start of [s], and the rest. *)
Fixpoint span_digits (s : jsstr) : jsstr * jsstr :=
  match s with
  | c :: s' => if is_digit c then let '(ds, r) := span_digits s' in (c :: ds, r) else ([], s)
  | [] => ([], [])
  end.

Definition digits_value (ds : jsstr) : Z := fold_left (fun acc d => acc * 10 + (d - 0x30)) ds 0.

(** ** Strings *)

(** The unit of a one-character escape [\e]. *)
Definition simple_escape (e : Z) : option Z :=
  if e =? c_quote then Some c_quote
  else if e =? c_bslash then Some c_bslash
  else if e =? 0x2F then Some 0x2F
  else if e =? 0x62 then Some 0x08
  else if e =? 0x66 then Some 0x0C
  else if e =? 0x6E then Some 0x0A
  else if e =? 0x72 then Some 0x0D
  else if e =? 0x74 then Some 0x09
  else None.

Definition hex4 (h1 h2 h3 h4 : Z) : option Z :=
  match hex_val h1, hex_val h2, hex_val h3, hex_val h4 with
  | Some a, Some b, Some c, Some d => Some (((a * 16 + b) * 16 + c) * 16 + d)
  | _, _, _, _ => None
  end.

Definition cons_res (u : Z) (r : pres jsstr) : pres jsstr :=
  match r with Parsed a rest => Parsed (u :: a) rest | PFail e => PFail e end.

(** The units of a string literal after its opening quote, up to and
    without its closing quote. *)
Fixpoint parse_chars (s : jsstr) : pres jsstr :=
  match s with
  | [] => PFail PSyntax
  | c :: s' =>
      if c =? c_quote then Parsed [] s'
      else if c =? c_bslash then
        match s' with
        | [] => PFail PSyntax
        | e :: s'' =>
            if e =? c_u then
              match s'' with
              | h1 :: h2 :: h3 :: h4 :: s3 =>
                  match hex4 h1 h2 h3 h4 with
                  | Some u => cons_res u (parse_chars s3)
                  | None => PFail PSyntax
                  end
              | _ => PFail PSyntax
              end
            else match simple_escape e with
                 | Some u => cons_res u (parse_chars s'')
                 | None => PFail PSyntax
                 end
        end
      else if c <? 0x20 then PFail PSyntax
      else cons_res c (parse_chars s')
  end.

(** ** Numbers *)

(** An optional fraction: whether there is one, and the rest. *)
Definition frac_part (r : jsstr) : option (bool * jsstr) :=
  match r with
  | c :: r' =>
      if c =? c_dot then
        let '(ds, r'') := span_digits r' in
        match ds with [] => None | _ => Some (true, r'') end
      else Some (false, r)
  | [] => Some (false, [])
  end.

(** An optional exponent. *)
Definition exp_part (r : jsstr) : option (bool * jsstr) :=
  match r with
  | c :: r' =>
      if (c =? 0x65) || (c =? 0x45) then
        let r'' := match r' with
                   | s :: t => if (s =? c_plus) || (s =? c_minus) then t else r'
                   | [] => r'
                   end in
        let '(ds, r3) := span_digits r'' in
        match ds with [] => None | _ => Some (true, r3) end
      else Some (false, r)
  | [] => Some (false, [])
  end.

(** The number after its integer digits [ds]. *)
Definition number_tail (neg : bool) (ds : jsstr) (r : jsstr) : pres json :=
  match frac_part r with
  | None => PFail PSyntax
  | Some (hasfrac, r1) =>
      match exp_part r1 with
      | None => PFail PSyntax
      | Some (hasexp, r2) =>
          if hasfrac || hasexp then PFail PUnsupported
          else
            let n := digits_value ds in
            if n <=? 2 ^ 53 then Parsed (JNum (if neg then - n else n)) r2
            else PFail PUnsupported
      end
  end.

Definition parse_number (s : jsstr) : pres json :=
  let '(neg, s1) := match s with
                    | c :: r => if c =? c_minus then (true, r) else (false, s)
                    | [] => (false, s)
                    end in
  match s1 with
  | c :: r =>
      if c =? c_zero then number_tail neg [c] r
      else if is_digit c then let '(ds, r') := span_digits r in number_tail neg (c :: ds) r'
      else PFail PSyntax
  | [] => PFail PSyntax
  end.

(** ** Values *)

Definition parse_literal (s : jsstr) : pres json :=
  match strip lit_true s with
  | Some r => Parsed (JBool true) r
  | None =>
      match strip lit_false s with
      | Some r => Parsed (JBool false) r
      | None =>
          match strip lit_null s with
          | Some r => Parsed JNull r
          | None => PFail PSyntax
          end
      end
  end.

Fixpoint parse_value (fuel : nat) (s : jsstr) : pres json :=
  match fuel with
  | O => PFail POutOfFuel
  | S f =>
      match skip_ws s with
      | [] => PFail PSyntax
      | c :: r =>
          if c =? c_lbrace then
            match skip_ws r with
            | d :: r' => if d =? c_rbrace then Parsed (JObj []) r' else parse_members f [] r
            | [] => PFail PSyntax
            end
          else if c =? c_lbrack then
            match skip_ws r with
            | d :: r' => if d =? c_rbrack then Parsed (JArr []) r' else parse_items f [] r
            | [] => PFail PSyntax
            end
          else if c =? c_quote then
            match parse_chars r with
            | Parsed str r' => Parsed (JStr str) r'
            | PFail e => PFail e
            end
          else if (c =? c_minus) || is_digit c then parse_number (c :: r)
          else parse_literal (c :: r)
      end
  end

(** The elements of an array after [[], the ones read so far in [acc]. *)
with parse_items (fuel : nat) (acc : list json) (s : jsstr) : pres json :=
  match fuel with
  | O => PFail POutOfFuel
  | S f =>
      match parse_value f s with
      | PFail e => PFail e
      | Parsed v r =>
          match skip_ws r with
          | c :: r' =>
              if c =? c_comma then parse_items f (acc ++ [v]) r'
              else if c =? c_rbrack then Parsed (JArr (acc ++ [v])) r'
              else PFail PSyntax
          | [] => PFail PSyntax
          end
      end
  end

(** The members of an object after [{], the ones read so far in [acc]. *)
with parse_members (fuel : nat) (acc : list (jsstr * json)) (s : jsstr) : pres json :=
  match fuel with
  | O => PFail POutOfFuel
  | S f =>
      match skip_ws s with
      | c :: r =>
          if c =? c_quote then
            match parse_chars r with
            | PFail e => PFail e
            | Parsed k r1 =>
                match skip_ws r1 with
                | d :: r2 =>
                    if d =? c_colon then
                      match parse_value f r2 with
                      | PFail e => PFail e
                      | Parsed v r3 =>
                          match skip_ws r3 with
                          | e :: r4 =>
                              if e =? c_comma then parse_members f (acc ++ [(k, v)]) r4
                              else if e =? c_rbrace then Parsed (JObj (acc ++ [(k, v)])) r4
                              else PFail PSyntax
                          | [] => PFail PSyntax
                          end
                      end
                    else PFail PSyntax
                | [] => PFail PSyntax
                end
            end
          else PFail PSyntax
      | [] => PFail PSyntax
      end
  end.

(** [JSON.parse(text)]: one value, then only whitespace. *)
Definition json_parse (s : jsstr) : parse_result :=
  match parse_value (2 * length s + 1) s with
  | Parsed v r => match skip_ws r with [] => ParseOk v | _ => ParseError PSyntax end
  | PFail e => ParseError e
  end.

(** ** Every step consumes input *)

(** A parse of [s] that made progress: it read at least one unit, or it
    failed for a reason other than fuel. *)
Definition ok_res {A} (r : pres A) (s : jsstr) : Prop :=
  match r with
  | Parsed _ rest => (length rest < length s)%nat
  | PFail e => e <> POutOfFuel
  end.

Ltac ok_solve := cbn; first [lia | intros ?; discriminate | done].

Lemma ok_res_weaken {A} (r : pres A) s1 s2 :
  ok_res r s1 -> (length s1 <= length s2)%nat -> ok_res r s2.
Proof. destruct r; cbn; [lia|done]. Qed.

Lemma skip_ws_length s : (length (skip_ws s) <= length s)%nat.
Proof. induction s as [|c s IH]; cbn; [lia|]. case_match; cbn; lia. Qed.

Lemma span_digits_app s : fst (span_digits s) ++ snd (span_digits s) = s.
Proof.
  induction s as [|c s IH]; cbn; [done|]. case_match; [|done].
  destruct (span_digits s) as [ds r]. cbn in *. by rewrite IH.
Qed.

Lemma span_digits_length s : (length (snd (span_digits s)) <= length s)%nat.
Proof. rewrite <- (span_digits_app s) at 2. rewrite length_app. lia. Qed.

Lemma strip_some p t r : strip p t = Some r -> t = p ++ r.
Proof.
  revert t. induction p as [|a p IH]; intros t; cbn; [by intros [= ->]|].
  destruct t as [|b t]; [done|]. destruct (Z.eqb_spec a b) as [<-|]; [|done].
  intros H. by rewrite (IH t H).
Qed.

Lemma cons_res_ok u r s : ok_res r s -> ok_res (cons_res u r) s.
Proof. by destruct r. Qed.

Lemma parse_chars_ok s : ok_res (parse_chars s) s.
Proof.
  induction s as [s IH] using list_len_ind. destruct s as [|c s']; cbn; [done|].
  repeat case_match; try done; cbn; try lia;
    apply cons_res_ok; (eapply ok_res_weaken; [apply IH|]); cbn in *; lia.
Qed.

Lemma frac_part_length r b r1 : frac_part r = Some (b, r1) -> (length r1 <= length r)%nat.
Proof.
  unfold frac_part. destruct r as [|c r]; [by intros [= _ <-]|].
  pose proof (span_digits_length r). destruct (span_digits r) as [ds r'] eqn:E.
  case_match; [|by intros [= _ <-]]. destruct ds; [done|]. intros [= _ <-]. cbn in *. lia.
Qed.

Lemma exp_part_length r b r1 : exp_part r = Some (b, r1) -> (length r1 <= length r)%nat.
Proof.
  unfold exp_part. destruct r as [|c r]; [by intros [= _ <-]|]. case_match; [|by intros [= _ <-]].
  set (r'' := match r with s :: t => if (s =? c_plus) || (s =? c_minus) then t else r | [] => r end).
  assert (Hr : (length r'' <= length r)%nat) by (subst r''; repeat case_match; cbn; lia).
  pose proof (span_digits_length r''). destruct (span_digits r'') as [ds r3].
  destruct ds; [done|]. intros [= _ <-]. cbn in *. lia.
Qed.

Lemma number_tail_ok neg ds r s : (length r < length s)%nat -> ok_res (number_tail neg ds r) s.
Proof.
  intros Hr. unfold number_tail.
  destruct (frac_part r) as [[b1 r1]|] eqn:E1; [|done]. apply frac_part_length in E1.
  destruct (exp_part r1) as [[b2 r2]|] eqn:E2; [|done]. apply exp_part_length in E2.
  repeat case_match; ok_solve.
Qed.

Lemma parse_number_ok s : ok_res (parse_number s) s.
Proof.
  unfold parse_number.
  assert (H : forall neg s1, (length s1 <= length s)%nat ->
    ok_res (match s1 with
            | c :: r => if c =? c_zero then number_tail neg [c] r
                        else if is_digit c then let '(ds, r') := span_digits r in number_tail neg (c :: ds) r'
                        else PFail PSyntax
            | [] => PFail PSyntax end) s).
  { intros neg [|c r] Hs; [done|]. cbn in Hs. case_match; [apply number_tail_ok; lia|].
    case_match; [|done]. pose proof (span_digits_length r). destruct (span_digits r).
    apply number_tail_ok. cbn in *. lia. }
  destruct s as [|c r]; [done|]. cbv beta iota. destruct (c =? c_minus); cbv beta iota; [apply (H true r)|apply (H false (c :: r))]; cbn; lia.
Qed.

Lemma parse_literal_ok s : ok_res (parse_literal s) s.
Proof.
  unfold parse_literal.
  repeat match goal with
  | |- context [strip ?p s] =>
      let E := fresh in
      destruct (strip p s) as [r|] eqn:E; [apply strip_some in E; subst s; cbn; rewrite ?length_app; cbn; lia|]
  end.
  ok_solve.
Qed.

(** The three parsers with enough fuel: twice the length of their input
    for [parse_value] and [parse_members], one more for [parse_items],
    which calls [parse_value] before consuming anything. *)
Lemma parse_progress f :
  (forall s, (2 * length s < f)%nat -> ok_res (parse_value f s) s) /\
  (forall acc s, (2 * length s + 1 < f)%nat -> ok_res (parse_items f acc s) s) /\
  (forall acc s, (2 * length s < f)%nat -> ok_res (parse_members f acc s) s).
Proof.
  induction f as [|f (Hv & Hi & Hm)]; [split; [|split]; intros; lia|].
  split; [|split].
  - intros s Hs. cbn [parse_value]. pose proof (skip_ws_length s) as Hw.
    destruct (skip_ws s) as [|c r]; [ok_solve|]. cbn in Hw.
    pose proof (skip_ws_length r) as Hr.
    destruct (c =? c_lbrace).
    { destruct (skip_ws r) as [|d r']; [ok_solve|]. cbn in Hr.
      destruct (d =? c_rbrace); [ok_solve|]. eapply ok_res_weaken; [apply Hm; lia|lia]. }
    destruct (c =? c_lbrack).
    { destruct (skip_ws r) as [|d r']; [ok_solve|]. cbn in Hr.
      destruct (d =? c_rbrack); [ok_solve|]. eapply ok_res_weaken; [apply Hi; lia|lia]. }
    destruct (c =? c_quote).
    { pose proof (parse_chars_ok r) as Hc. destruct (parse_chars r); cbn in *; [lia|done]. }
    destruct ((c =? c_minus) || is_digit c).
    + eapply ok_res_weaken; [apply parse_number_ok|cbn; lia].
    + eapply ok_res_weaken; [apply parse_literal_ok|cbn; lia].
  - intros acc s Hs. cbn [parse_items]. pose proof (Hv s ltac:(lia)) as Hvs.
    destruct (parse_value f s) as [v r|e]; [|done]. cbn in Hvs.
    pose proof (skip_ws_length r) as Hr. destruct (skip_ws r) as [|c r']; [ok_solve|]. cbn in Hr.
    repeat case_match; try ok_solve. eapply ok_res_weaken; [apply Hi; lia|lia].
  - intros acc s Hs. cbn [parse_members]. pose proof (skip_ws_length s) as Hw.
    destruct (skip_ws s) as [|c r]; [ok_solve|]. cbn in Hw.
    case_match; [|ok_solve]. pose proof (parse_chars_ok r) as Hc.
    destruct (parse_chars r) as [k r1|e]; [|done]. cbn in Hc.
    pose proof (skip_ws_length r1) as Hw1. destruct (skip_ws r1) as [|d r2]; [ok_solve|]. cbn in Hw1.
    case_match; [|ok_solve]. pose proof (Hv r2 ltac:(lia)) as Hvs.
    destruct (parse_value f r2) as [v r3|e]; [|done]. cbn in Hvs.
    pose proof (skip_ws_length r3) as Hw3. destruct (skip_ws r3) as [|e r4]; [ok_solve|]. cbn in Hw3.
    repeat case_match; try ok_solve. eapply ok_res_weaken; [apply Hm; lia|lia].
Qed.

(** C36 (termination): [JSON.parse] as modelled always finishes: with the
    fuel [json_parse] gives it, the parser never runs out, so every text
    is either a value or a syntax error (or a number the model does not
    represent). *)
Theorem json_parse_terminates s : json_parse s <> ParseError POutOfFuel.
Proof.
  unfold json_parse. pose proof (proj1 (parse_progress (2 * length s + 1)) s ltac:(lia)) as H.
  destruct (parse_value _ s) as [v r|e]; [case_match; discriminate|]. cbn in H. congruence.
Qed.

(** ** A printer to read back *)

(** A lower-case hex digit, as [JSON.stringify] writes [\u001f]. *)
Definition hexd (d : Z) : Z := if d <? 10 then 0x30 + d else 0x57 + d.

(** The escaped form of one unit inside a string literal, as
    [JSON.stringify] writes it (it also escapes lone surrogates; written
    raw they read back the same). *)
Definition esc_json_unit (c : Z) : jsstr :=
  if c =? c_quote then [c_bslash; c_quote]
  else if c =? c_bslash then [c_bslash; c_bslash]
  else if c =? 0x08 then [c_bslash; 0x62]
  else if c =? 0x09 then [c_bslash; 0x74]
  else if c =? 0x0A then [c_bslash; 0x6E]
  else if c =? 0x0C then [c_bslash; 0x66]
  else if c =? 0x0D then [c_bslash; 0x72]
  else if c <? 0x20 then [c_bslash; c_u; 0x30; 0x30; hexd (c / 16); hexd (c mod 16)]
  else [c].

Definition quote_json (s : jsstr) : jsstr := c_quote :: flat_map esc_json_unit s ++ [c_quote].

(** The decimal digits of [n >= 0] before [acc]; [fuel] bounds their
    number. *)
Fixpoint digits_go (fuel : nat) (n : Z) (acc : jsstr) : jsstr :=
  match fuel with
  | O => acc
  | S f => if n <? 10 then (0x30 + n) :: acc else digits_go f (n / 10) ((0x30 + n mod 10) :: acc)
  end.

(** An integer in decimal; [log2 n + 1] digits are always enough. *)
Definition num_text (n : Z) : jsstr :=
  (if n <? 0 then [c_minus] else []) ++ digits_go (S (Z.to_nat (Z.log2 (Z.abs n)))) (Z.abs n) [].

(** The rest of an array after its first element: each further element
    after a comma, then the closing bracket. *)
Fixpoint items_tail (txt : json -> jsstr) (l : list json) : jsstr :=
  match l with [] => [c_rbrack] | y :: l' => c_comma :: txt y ++ items_tail txt l' end.

(** A member [key:value]. *)
Definition member_text (txt : json -> jsstr) (k : jsstr) (x : json) : jsstr :=
  quote_json k ++ c_colon :: txt x.

Fixpoint members_tail (txt : json -> jsstr) (kvs : list (jsstr * json)) : jsstr :=
  match kvs with
  | [] => [c_rbrace]
  | (k, y) :: kvs' => c_comma :: member_text txt k y ++ members_tail txt kvs'
  end.

(** The JSON text of a value, without whitespace, as [JSON.stringify]
    writes it. *)
Fixpoint json_text (v : json) : jsstr :=
  match v with
  | JNull => lit_null
  | JBool true => lit_true
  | JBool false => lit_false
  | JNum n => num_text n
  | JStr s => quote_json s
  | JArr [] => [c_lbrack; c_rbrack]
  | JArr (x :: l) => c_lbrack :: json_text x ++ items_tail json_text l
  | JObj [] => [c_lbrace; c_rbrace]
  | JObj ((k, x) :: kvs) => c_lbrace :: member_text json_text k x ++ members_tail json_text kvs
  end.

(** The values the model of [JSON.parse] represents: integers within
    2^53 and strings of code units. *)
Fixpoint json_supported (v : json) : bool :=
  match v with
  | JNull | JBool _ => true
  | JNum n => Z.abs n <=? 2 ^ 53
  | JStr s => forallb unit_ok s
  | JArr l => forallb json_supported l
  | JObj kvs => forallb (fun kv => forallb unit_ok (fst kv) && json_supported (snd kv)) kvs
  end.

(** ** Reading back strings and numbers *)

Lemma hex_val_hexd d : 0 <= d < 16 -> hex_val (hexd d) = Some d.
Proof. intros Hd. unfold hex_val, hexd. zcase; cbn; zcase; f_equal; lia. Qed.

Lemma parse_chars_uesc h1 h2 h3 h4 rest :
  parse_chars (c_bslash :: c_u :: h1 :: h2 :: h3 :: h4 :: rest) =
  match hex4 h1 h2 h3 h4 with Some u => cons_res u (parse_chars rest) | None => PFail PSyntax end.
Proof. reflexivity. Qed.

Lemma parse_chars_plain c rest : c <> c_quote -> c <> c_bslash -> 0x20 <= c ->
  parse_chars (c :: rest) = cons_res c (parse_chars rest).
Proof. intros H1 H2 H3. cbn [parse_chars]. unfold c_quote, c_bslash in *. by zcase. Qed.

Lemma parse_chars_esc c rest : unit_ok c = true ->
  parse_chars (esc_json_unit c ++ rest) = cons_res c (parse_chars rest).
Proof.
  intros Hc%unit_ok_spec. unfold esc_json_unit.
  destruct (Z.eqb_spec c c_quote) as [->|]; [reflexivity|].
  destruct (Z.eqb_spec c c_bslash) as [->|]; [reflexivity|].
  zcase; subst; try reflexivity.
  - cbn [app]. rewrite parse_chars_uesc. unfold hex4. rewrite !hex_val_hexd by zlia.
    change (hex_val 48) with (Some 0). do 2 f_equal. zlia.
  - apply parse_chars_plain; (done || lia).
Qed.

Lemma parse_chars_quote s rest : forallb unit_ok s = true ->
  parse_chars (flat_map esc_json_unit s ++ c_quote :: rest) = Parsed s rest.
Proof.
  induction s as [|c s IH]; cbn [flat_map forallb]; intros Hs; [reflexivity|].
  apply andb_prop in Hs as [Hc Hs]. rewrite <- app_assoc, parse_chars_esc, IH by done. done.
Qed.

(** No more of a number can follow: not a digit, a dot or an exponent. *)
Definition no_num_cont (rest : jsstr) : bool :=
  match rest with
  | [] => true
  | c :: _ => negb (is_digit c || (c =? c_dot) || (c =? 0x65) || (c =? 0x45))
  end.

Lemma digits_value_snoc ds d : digits_value (ds ++ [d]) = digits_value ds * 10 + (d - 0x30).
Proof. unfold digits_value. by rewrite fold_left_app. Qed.

Lemma digits_go_spec f n acc : (0 < f)%nat -> 0 <= n < 10 ^ Z.of_nat f ->
  exists ds, digits_go f n acc = ds ++ acc /\ ds <> [] /\ forallb is_digit ds = true /\
    digits_value ds = n /\ (hd 0 ds = 0x30 -> ds = [0x30]).
Proof.
  revert n acc. induction f as [|f IH]; intros n acc Hf Hn; [lia|]. cbn [digits_go].
  destruct (Z.ltb_spec n 10).
  - exists [0x30 + n]. cbn. unfold is_digit, digits_value. cbn.
    split; [done|]. split; [done|]. split; [zcase; reflexivity|]. split; [lia|].
    intros [= H0]. do 2 f_equal. lia.
  - destruct f as [|f]; [cbn in Hn; lia|].
    destruct (IH (n / 10) ((0x30 + n mod 10) :: acc)) as (ds & E & Hne & Hd & Hv & H0);
      [lia| rewrite Nat2Z.inj_succ, Z.pow_succ_r in Hn by lia; zlia|].
    exists (ds ++ [0x30 + n mod 10]). rewrite E, <- app_assoc. split; [done|].
    split; [by destruct ds|]. rewrite forallb_app, Hd. split.
    { cbn. unfold is_digit. zcase; zlia. }
    rewrite digits_value_snoc, Hv. split; [zlia|].
    destruct ds as [|d ds]; [done|]. cbn. intros Hd0. specialize (H0 Hd0).
    injection H0 as -> ->. unfold digits_value in Hv. cbn in Hv. zlia.
Qed.

Lemma span_digits_app_nd ds rest :
  forallb is_digit ds = true -> no_num_cont rest = true -> span_digits (ds ++ rest) = (ds, rest).
Proof.
  intros Hd Hr. induction ds as [|d ds IH]; cbn [app span_digits].
  - destruct rest as [|c rest]; [done|]. unfold no_num_cont in Hr.
    destruct (is_digit c) eqn:E; cbn in Hr; [discriminate|]. cbn [span_digits]. by rewrite E.
  - cbn in Hd. apply andb_prop in Hd as [-> Hd]. by rewrite IH.
Qed.

Lemma number_tail_ok_value neg ds rest : no_num_cont rest = true -> digits_value ds <= 2 ^ 53 ->
  number_tail neg ds rest = Parsed (JNum (if neg then - digits_value ds else digits_value ds)) rest.
Proof.
  intros Hr Hv. unfold number_tail.
  assert (Hf : frac_part rest = Some (false, rest) /\ exp_part rest = Some (false, rest)).
  { destruct rest as [|c rest]; [done|]. cbn in Hr. unfold frac_part, exp_part.
    apply negb_true_iff, orb_false_iff in Hr as [Hr He1]. apply orb_false_iff in Hr as [Hr He].
    apply orb_false_iff in Hr as [_ Hdot]. by rewrite Hdot, He1, He. }
  destruct Hf as [-> ->]. cbn. apply Z.leb_le in Hv. by rewrite Hv.
Qed.

Lemma log2_digits n : 0 <= n -> n < 10 ^ Z.of_nat (S (Z.to_nat (Z.log2 n))).
Proof.
  intros Hn. rewrite Nat2Z.inj_succ, Z2Nat.id by apply Z.log2_nonneg.
  destruct (Z.eq_dec n 0) as [->|Hn0]; [cbn; lia|].
  assert (H2 : n < 2 ^ Z.succ (Z.log2 n)) by (apply Z.log2_spec; lia).
  eapply Z.lt_le_trans; [exact H2|]. apply Z.pow_le_mono_l. pose proof (Z.log2_nonneg n). lia.
Qed.

(** Reading back the decimal text of a represented integer. *)
Lemma parse_number_text n rest : Z.abs n <= 2 ^ 53 -> no_num_cont rest = true ->
  parse_number (num_text n ++ rest) = Parsed (JNum n) rest.
Proof.
  intros Hn Hr. unfold num_text.
  destruct (digits_go_spec (S (Z.to_nat (Z.log2 (Z.abs n)))) (Z.abs n) [])
    as (ds & E & Hne & Hd & Hv & H0); [lia|split; [lia|apply log2_digits; lia]|].
  rewrite E, app_nil_r. destruct ds as [|d ds]; [done|]. cbn in Hd. apply andb_prop in Hd as [Hd1 Hd].
  assert (Hval : forall neg, number_tail neg (d :: ds) rest =
                 Parsed (JNum (if neg then - Z.abs n else Z.abs n)) rest)
    by (intros; rewrite number_tail_ok_value by (done || lia); by rewrite Hv).
  assert (Hbody : forall neg,
    (if d =? c_zero then number_tail neg [d] (ds ++ rest)
     else if is_digit d then let '(ds0, r') := span_digits (ds ++ rest) in number_tail neg (d :: ds0) r'
     else PFail PSyntax) = Parsed (JNum (if neg then - Z.abs n else Z.abs n)) rest).
  { intros neg. destruct (Z.eqb_spec d c_zero) as [Hz|Hz].
    - specialize (H0 Hz). injection H0 as -> ->. apply Hval.
    - rewrite Hd1, span_digits_app_nd by done. apply Hval. }
  assert (d <> c_minus) by (unfold is_digit in Hd1; unfold c_minus; zcase; lia).
  unfold parse_number. destruct (Z.ltb_spec n 0); cbn [app]; cbv beta iota.
  - rewrite Z.eqb_refl. cbv beta iota. rewrite Hbody. do 2 f_equal. lia.
  - destruct (Z.eqb_spec d c_minus); [done|]. cbv beta iota. rewrite Hbody. do 2 f_equal. lia.
Qed.

(** ** Reading back values *)

(** What may follow a value inside the text of an enclosing one. *)
Definition delim (rest : jsstr) : bool :=
  match rest with
  | [] => true
  | c :: _ => (c =? c_comma) || (c =? c_rbrack) || (c =? c_rbrace)
  end.

Lemma delim_no_num rest : delim rest = true -> no_num_cont rest = true.
Proof.
  destruct rest as [|c rest]; [done|]. cbn. unfold is_digit, c_comma, c_rbrack, c_rbrace, c_dot.
  intros H. zcase; lia.
Qed.

Lemma skip_ws_cons c t : is_json_ws c = false -> skip_ws (c :: t) = c :: t.
Proof. intros H. cbn. by rewrite H. Qed.

(** A number starts with a minus sign or a digit. *)
Definition num_start (c : Z) : bool := (c =? c_minus) || is_digit c.

Lemma num_start_not c : num_start c = true ->
  is_json_ws c = false /\ c <> c_lbrace /\ c <> c_lbrack /\ c <> c_quote /\
  c <> c_rbrack /\ c <> c_rbrace.
Proof.
  unfold num_start, is_digit, is_json_ws, c_minus, c_lbrace, c_lbrack, c_quote, c_rbrack, c_rbrace.
  intros H. zcase; repeat split; lia.
Qed.

Lemma num_text_head n : exists c t, num_text n = c :: t /\ num_start c = true.
Proof.
  unfold num_text. destruct (Z.ltb_spec n 0); [by eexists _, _|].
  destruct (digits_go_spec (S (Z.to_nat (Z.log2 (Z.abs n)))) (Z.abs n) [])
    as ([|d ds] & E & Hne & Hd & _); [lia|split; [lia|apply log2_digits; lia]|done|].
  rewrite E. exists d, (ds ++ []). split; [done|]. cbn in Hd. apply andb_prop in Hd as [Hd _].
  unfold num_start. by rewrite Hd, orb_true_r.
Qed.

Lemma parse_value_number f c r : num_start c = true ->
  parse_value (S f) (c :: r) = parse_number (c :: r).
Proof.
  intros H. destruct (num_start_not c H) as (Hw & H1 & H2 & H3 & _).
  cbn [parse_value]. rewrite skip_ws_cons by done.
  rewrite (proj2 (Z.eqb_neq _ _) H1), (proj2 (Z.eqb_neq _ _) H2), (proj2 (Z.eqb_neq _ _) H3).
  unfold num_start in H. by rewrite H.
Qed.

Lemma json_text_head v : exists c t, json_text v = c :: t /\ is_json_ws c = false /\
  c <> c_rbrack /\ c <> c_rbrace.
Proof.
  destruct v as [| [] | n | s | [|x l] | [|[k x] kvs]]; try (by eexists _, _).
  destruct (num_text_head n) as (c & t & E & Hc). exists c, t. cbn. rewrite E.
  destruct (num_start_not c Hc) as (? & _ & _ & _ & ? & ?). done.
Qed.

Lemma member_text_app k x r :
  member_text json_text k x ++ r = c_quote :: flat_map esc_json_unit k ++ c_quote :: c_colon :: json_text x ++ r.
Proof. unfold member_text, quote_json. cbn. by rewrite <- !app_assoc. Qed.

Ltac len_lia := repeat (first [rewrite length_app in * | progress cbn [length app] in *]); lia.

Section Roundtrip.

(** A value whose text, followed by anything that may follow a value,
    parses back to it with enough fuel. *)
Definition reads_back (v : json) : Prop :=
  forall f rest, delim rest = true -> (2 * length (json_text v ++ rest) < f)%nat ->
    parse_value f (json_text v ++ rest) = Parsed v rest.

Lemma parse_items_text l : Forall reads_back l ->
  forall x acc f rest, reads_back x -> delim rest = true ->
  (2 * length (json_text x ++ items_tail json_text l ++ rest) + 1 < f)%nat ->
  parse_items f acc (json_text x ++ items_tail json_text l ++ rest) = Parsed (JArr (acc ++ x :: l)) rest.
Proof.
  induction l as [|y l IH]; intros Hl x acc f rest Hx Hr Hf; destruct f as [|f]; try lia;
    cbn [parse_items].
  - rewrite Hx; [reflexivity|reflexivity|lia].
  - apply Forall_cons in Hl as [Hy Hl]. rewrite Hx; [|reflexivity|lia]. cbn [items_tail app skip_ws].
    change (is_json_ws c_comma) with false. cbv iota. change (c_comma =? c_comma) with true. cbv iota.
    rewrite <- ?app_assoc. rewrite IH by (done || (rewrite !length_app in *; cbn in *; rewrite ?length_app in *; lia)).
    by rewrite <- app_assoc.
Qed.

Lemma parse_members_text kvs : Forall (fun kv => reads_back (snd kv)) kvs ->
  forallb (fun kv => forallb unit_ok (fst kv)) kvs = true ->
  forall k x acc f rest, reads_back x -> forallb unit_ok k = true -> delim rest = true ->
  (2 * length (member_text json_text k x ++ members_tail json_text kvs ++ rest) < f)%nat ->
  parse_members f acc (member_text json_text k x ++ members_tail json_text kvs ++ rest) =
    Parsed (JObj (acc ++ (k, x) :: kvs)) rest.
Proof.
  induction kvs as [|[k' y] kvs IH]; intros Hl Hk k x acc f rest Hx Hku Hr Hf; destruct f as [|f]; try lia;
    rewrite member_text_app in *; cbn [parse_members skip_ws];
    change (is_json_ws c_quote) with false; change (c_quote =? c_quote) with true; cbv iota;
    rewrite parse_chars_quote by done; cbn [skip_ws];
    change (is_json_ws c_colon) with false; change (c_colon =? c_colon) with true; cbv iota.
  - rewrite Hx; [reflexivity|reflexivity|len_lia].
  - apply Forall_cons in Hl as [Hy Hl]. cbn in Hk. apply andb_prop in Hk as [Hk1 Hk].
    rewrite Hx; [|reflexivity|len_lia].
    cbn [members_tail app skip_ws].
    change (is_json_ws c_comma) with false. cbv iota. change (c_comma =? c_comma) with true. cbv iota.
    rewrite <- ?app_assoc. rewrite IH; [by rewrite !Z.eqb_refl, <- app_assoc|..]; try done.
    cbn [members_tail] in Hf. rewrite ?member_text_app in *. len_lia.
Qed.

Lemma parse_value_string f r :
  parse_value (S f) (c_quote :: r) =
  match parse_chars r with Parsed str r' => Parsed (JStr str) r' | PFail e => PFail e end.
Proof. reflexivity. Qed.

Lemma parse_value_array f r :
  parse_value (S f) (c_lbrack :: r) =
  match skip_ws r with
  | d :: r' => if d =? c_rbrack then Parsed (JArr []) r' else parse_items f [] r
  | [] => PFail PSyntax
  end.
Proof. reflexivity. Qed.

Lemma parse_value_object f r :
  parse_value (S f) (c_lbrace :: r) =
  match skip_ws r with
  | d :: r' => if d =? c_rbrace then Parsed (JObj []) r' else parse_members f [] r
  | [] => PFail PSyntax
  end.
Proof. reflexivity. Qed.

Lemma parse_value_array_text f x r :
  parse_value (S f) (c_lbrack :: json_text x ++ r) = parse_items f [] (json_text x ++ r).
Proof.
  destruct (json_text_head x) as (c & t & E & Hw & Hb & _). rewrite parse_value_array, E.
  cbn [app]. rewrite skip_ws_cons by done. by rewrite (proj2 (Z.eqb_neq _ _) Hb).
Qed.

Lemma json_text_reads_back v : json_supported v = true -> reads_back v.
Proof.
  induction v as [| [] | n | s | l IH | kvs IH] using json_ind; intros Hs f rest Hr Hf; destruct f as [|f]; try lia;
    try reflexivity.
  - destruct (num_text_head n) as (c & t & E & Hc). cbn [json_text] in *. rewrite E in *.
    cbn [app]. rewrite parse_value_number by done. change (c :: t ++ rest) with ((c :: t) ++ rest).
    rewrite <- E. apply parse_number_text; [by apply Z.leb_le|by apply delim_no_num].
  - cbn [json_text]. unfold quote_json. cbn [app]. rewrite <- app_assoc. cbn [app]. rewrite parse_value_string.
    by rewrite parse_chars_quote.
  - destruct l as [|x l]; [reflexivity|]. cbn in Hs. apply andb_prop in Hs as [Hx Hl].
    apply Forall_cons in IH as [IHx IH].
    cbn [json_text app]. rewrite <- app_assoc, parse_value_array_text.
    apply parse_items_text; [|by apply IHx|done|cbn [json_text] in Hf; len_lia].
    rewrite Forall_forall in IH |- *. intros y Hy. apply IH; [done|].
    rewrite forallb_forall in Hl. apply Hl. by apply list_elem_of_In.
  - destruct kvs as [|[k x] kvs]; [reflexivity|]. cbn in Hs.
    apply andb_prop in Hs as [Hkx Hkvs]. apply andb_prop in Hkx as [Hk Hx].
    apply Forall_cons in IH as [IHx IH].
    cbn [json_text app]. rewrite parse_value_object, <- app_assoc.
    rewrite member_text_app. cbn [skip_ws]. change (is_json_ws c_quote) with false. cbv iota.
    change (c_quote =? c_rbrace) with false. cbv iota. rewrite <- member_text_app.
    apply parse_members_text; [| |by apply IHx|done|done|cbn [json_text] in Hf; len_lia].
    + rewrite Forall_forall in IH |- *. intros [k' y] Hy. apply IH; [done|].
      rewrite forallb_forall in Hkvs. specialize (Hkvs _ (proj1 (list_elem_of_In _ _) Hy)).
      by apply andb_prop in Hkvs as [_ ?].
    + apply forallb_forall. intros [k' y] Hy. rewrite forallb_forall in Hkvs.
      specialize (Hkvs _ Hy). by apply andb_prop in Hkvs as [? _].
Qed.

End Roundtrip.

(** ** Properties *)

(** C37 (roundtrip): [JSON.parse] reads back the JSON text of every value
    the model represents: nested arrays and objects, strings with any
    code units (quotes, backslashes and control characters escaped), and
    integers within 2^53. *)
Theorem json_parse_roundtrip v : json_supported v = true -> json_parse (json_text v) = ParseOk v.
Proof.
  intros H. unfold json_parse.
  pose proof (json_text_reads_back v H (2 * length (json_text v) + 1)%nat [] eq_refl) as E.
  rewrite app_nil_r in E. rewrite E by lia. reflexivity.
Qed.

(** A value with every kind of JSON value in it. *)
Definition json_sample : json :=
  JArr [JObj [(lit "id", JStr (tpl "a`b\c")); (lit "n", JNum (-12))]; JNull; JBool true;
        JArr [JStr [0x0A; 0x01]]; JObj []].

Lemma json_parse_roundtrip_witness :
  json_supported json_sample = true /\ json_parse (json_text json_sample) = ParseOk json_sample.
Proof.
  assert (H : json_supported json_sample = true) by (vm_compute; reflexivity).
  split; [exact H|]. exact (json_parse_roundtrip _ H).
Defined.
