(* ===== verification/Page.v ===== *)
(** * Page: [pageHtml], the HTML document of one question (lines 36-72)

    [pageHtml] computes [t = esc(title || "質問")], the description
    [desc = esc(clip(body || '', 120))] and the canonical URL from
    [encodeURIComponent(id)], then fills a template literal with them,
    with [esc(body || '')] and [encodeURIComponent(id)] again.  The fixed
    text between the holes is [page_part0] .. [page_part9], taken verbatim
    from lines 41-71; because a Rocq string cannot hold a double quote
    here, each double quote of the template is written as a backquote
    (the template has none of its own) and [tpl] puts it back.
    [encodeURIComponent] may throw, so [page_html] returns an option. *)

From Stdlib Require Import String.
From stdpp Require Import base list.
From Stdlib Require Import ZArith Lia.
From S2P Require Import Prelude Unicode Json Normalize Escape Clip Uri.
Local Set Warnings "-clear-no-such-hyp".
Open Scope Z_scope.

Definition page_part0 : jsstr := tpl "<!doctype html>
<html lang=`ja`>
<head>
  <meta charset=`utf-8`/>
  <meta name=`viewport` content=`width=device-width,initial-scale=1`/>
  <title>".
Definition page_part1 : jsstr := tpl " | 整形相談室</title>
  <meta name=`description` content=`".
Definition page_part2 : jsstr := tpl "`>
  <link rel=`canonical` href=`".
Definition page_part3 : jsstr := tpl "`>
  <meta property=`og:type` content=`article`>
  <meta property=`og:title` content=`".
Definition page_part4 : jsstr := tpl "`>
  <meta property=`og:description` content=`".
Definition page_part5 : jsstr := tpl "`>
  <meta property=`og:url` content=`".
Definition page_part6 : jsstr := tpl "`>
  <meta name=`twitter:card` content=`summary`>
</head>
<body>
  <main style=`max-width:820px;margin:28px auto;padding:0 14px;font-family:system-ui,-apple-system,Segoe UI,Roboto,'Noto Sans JP',sans-serif;`>
    <h1 style=`font-size:20px;line-height:1.35;margin:0 0 10px 0;`>".
Definition page_part7 : jsstr := tpl "</h1>
    <div style=`white-space:pre-wrap;line-height:1.7;color:#111;`>".
Definition page_part8 : jsstr := tpl "</div>

    <hr style=`margin:18px 0;border:none;border-top:1px solid #eee`>

    <a href=`../q.html?id=".
Definition page_part9 : jsstr := tpl "` style=`display:inline-block;padding:10px 12px;border:1px solid #ddd;border-radius:10px;text-decoration:none;`>
      回答を見る / 回答する
    </a>

    <div style=`margin-top:14px;font-size:12px;color:#666;`>
      ※このページは検索向けの表示です。実際の回答・投稿はアプリページで行えます。
    </div>
  </main>
</body>
</html>".

(** [title || "質問"], as the string [esc] converts it to. *)
Definition title_text (title : json) : jsstr :=
  if truthy_val title then to_string title else lit "質問".

(** [body || ''], as a string. *)
Definition body_text (body : json) : jsstr :=
  if truthy_val body then to_string body else [].

(** [String(id)] where [encodeURIComponent] and the template read the id. *)
Definition id_string (id : option json) : jsstr :=
  match id with Some v => to_string v | None => lit "undefined" end.

Definition page_title (q : question) : jsstr := esc (title_text (qtitle q)).

Definition page_desc (q : question) : jsstr := esc (clip (body_text (qbody q)) 120).

Definition canonical_prefix : jsstr := lit "https://seikei-qa.github.io/seikei-soudan/q/".

(** The canonical URL (line 39), from an encoded id. *)
Definition canonical_of (enc : jsstr) : jsstr := canonical_prefix ++ enc ++ lit ".html".

(** The document (lines 41-71) with its holes filled. *)
Definition fill (t desc canonical body enc : jsstr) : jsstr :=
  page_part0 ++ t ++ page_part1 ++ desc ++ page_part2 ++ canonical ++
  page_part3 ++ t ++ page_part4 ++ desc ++ page_part5 ++ canonical ++
  page_part6 ++ t ++ page_part7 ++ body ++ page_part8 ++ enc ++ page_part9.

(** [pageHtml] (lines 36-72); [None] is the [URIError] of
    [encodeURIComponent]. *)
Definition page_html (q : question) : option jsstr :=
  match encodeURIComponent (id_string (qid q)) with
  | None => None
  | Some enc =>
      Some (fill (page_title q) (page_desc q) (canonical_of enc)
                 (esc (body_text (qbody q))) enc)
  end.

(** A unit that cannot end a double-quoted attribute or start a tag or
    an entity. *)
Definition attr_safe (c : Z) : bool :=
  negb ((c =? u_quot) || (c =? u_lt) || (c =? u_gt) || (c =? u_amp)).

(** ** Lemmas *)

Lemma uri_out_attr_safe c : uri_out c = true -> attr_safe c = true.
Proof.
  unfold uri_out, attr_safe. intros H. apply orb_prop in H as [H|H].
  - destruct (Z.eqb_spec c u_quot) as [->|]; [vm_compute in H; done|].
    destruct (Z.eqb_spec c u_lt) as [->|]; [vm_compute in H; done|].
    destruct (Z.eqb_spec c u_gt) as [->|]; [vm_compute in H; done|].
    destruct (Z.eqb_spec c u_amp) as [->|]; [vm_compute in H; done|]. done.
  - apply Z.eqb_eq in H as ->. reflexivity.
Qed.

Lemma canonical_attr_safe enc :
  forallb attr_safe enc = true -> forallb attr_safe (canonical_of enc) = true.
Proof. intros H. unfold canonical_of. rewrite !forallb_app, H. reflexivity. Qed.

Lemma uri_attr_safe s e :
  forallb unit_ok s = true -> encodeURIComponent s = Some e -> forallb attr_safe e = true.
Proof.
  intros Hu He. pose proof (encode_charset s e Hu He) as Hc.
  apply forallb_forall. intros c Hin. apply uri_out_attr_safe.
  by eapply forallb_forall in Hc.
Qed.

(** ** Properties *)


(** C17 (safety): a page is the fixed template with its holes filled; the
    title, the description and the body holes are escaped text (no [<],
    [>], quote, and [&] only in entities) and the canonical URL and the
    link's id have no double quote, [<], [>] or [&], so no question text
    can close an attribute or open a tag. *)
Theorem page_holes_safe q h :
  forallb unit_ok (id_string (qid q)) = true -> page_html q = Some h ->
  exists t d c b e, h = fill t d c b e /\
    text_safe t = true /\ text_safe d = true /\ text_safe b = true /\
    forallb attr_safe c = true /\ forallb attr_safe e = true.
Proof.
  intros Hu. unfold page_html. destruct (encodeURIComponent _) as [enc|] eqn:He; [|done].
  intros [= <-]. pose proof (uri_attr_safe _ _ Hu He) as Henc.
  eexists _, _, _, _, _. split; [reflexivity|].
  unfold page_title, page_desc. rewrite !esc_text_safe. by rewrite canonical_attr_safe.
Qed.

Definition sample_question : question :=
  mkQuestion (Some (JStr (lit "abc"))) (JStr (lit "鼻の相談"))
             (JStr (lit "術後1週間です。腫れは引きますか？")).

Lemma page_holes_safe_witness :
  exists h, page_html sample_question = Some h /\
  exists t d c b e, h = fill t d c b e /\
    text_safe t = true /\ text_safe d = true /\ text_safe b = true /\
    forallb attr_safe c = true /\ forallb attr_safe e = true.
Proof.
  destruct (page_html sample_question) as [h|] eqn:Hh; [|vm_compute in Hh; discriminate].
  exists h. split; [reflexivity|]. apply (page_holes_safe sample_question); [vm_compute; reflexivity|exact Hh].
Defined.



(** A question without a title gets the title 質問
    ("question") in its [<title>], its [og:title] and its heading. *)
Example page_title_default :
  page_title (mkQuestion (Some (JStr (lit "x"))) empty_str (JStr (lit "B"))) = lit "質問".
Proof. vm_compute. reflexivity. Qed.
