(* ===== verification/Sitemap.v ===== *)
(** * Sitemap: the [sitemap.xml] text built by [run] (lines 105-109)

    [run] maps each kept question to
    [https://seikei-qa.github.io/seikei-soudan/q/${q.id}.html] (with the id
    neither percent-encoded nor XML-escaped), wraps each URL in
    [  <url><loc>..</loc></url>], joins the entries with newlines and puts
    them between the XML declaration with the [<urlset>] opening tag and
    the closing tag.  [sitemap_locs] reads the [<loc>] values back from
    such a text, as a crawler would; [sitemap_roundtrip] shows it recovers
    one URL per question, in order, as long as no id holds a [<], and the
    examples at the end show what happens otherwise and how the sitemap
    URL differs from the page's canonical URL. *)

From Stdlib Require Import String.
From stdpp Require Import base list.
From Stdlib Require Import ZArith Lia.
From S2P Require Import Prelude Unicode Json Normalize Escape Uri Page.
Local Set Warnings "-clear-no-such-hyp".
Open Scope Z_scope.

(** The line feed, ["\n"] in [join("\n")]. *)
Definition u_lf : Z := 0x0A.

(** Line 105: the URL of a question, with [${q.id}] unencoded. *)
Definition sitemap_url (q : question) : jsstr :=
  canonical_prefix ++ id_string (qid q) ++ lit ".html".

Definition entry_open : jsstr := Eval cbv in lit "  <url><loc>".
Definition entry_close : jsstr := Eval cbv in lit "</loc></url>".

(** Line 108: [`  <url><loc>${u}</loc></url>`]. *)
Definition sitemap_entry (u : jsstr) : jsstr := entry_open ++ u ++ entry_close.

(** [Array.prototype.join(sep)]. *)
Definition join_with (sep : jsstr) (l : list jsstr) : jsstr :=
  match l with
  | [] => []
  | x :: l' => x ++ flat_map (fun y => sep ++ y) l'
  end.

Definition sitemap_head : jsstr :=
  tpl "<?xml version=`1.0` encoding=`UTF-8`?>
<urlset xmlns=`http://www.sitemaps.org/schemas/sitemap/0.9`>
".

Definition urlset_close : jsstr := Eval cbv in lit "</urlset>".

(** Lines 106-109. *)
Definition sitemap_xml (qs : list question) : jsstr :=
  sitemap_head ++ join_with [u_lf] (map sitemap_entry (map sitemap_url qs)) ++
  [u_lf] ++ urlset_close.

(** ** Reading a sitemap back *)

(** The text up to the first [<], and the rest. *)
Fixpoint split_at_lt (t : jsstr) : jsstr * jsstr :=
  match t with
  | [] => ([], [])
  | c :: t' => if c =? u_lt then ([], t) else let (a, b) := split_at_lt t' in (c :: a, b)
  end.

(** The entries after the head: each is an opening, a location up to the
    next [<], a closing and a line feed, the last followed by the closing
    tag of the set; [fuel] bounds the number of entries. *)
Fixpoint read_entries (fuel : nat) (t : jsstr) : option (list jsstr) :=
  match fuel with
  | O => None
  | S f =>
      match strip entry_open t with
      | None => None
      | Some r1 =>
          let (u, r2) := split_at_lt r1 in
          match strip entry_close r2 with
          | Some (c :: r3) =>
              if c =? u_lf then
                if bool_decide (r3 = urlset_close) then Some [u]
                else (fun us => u :: us) <$> read_entries f r3
              else None
          | _ => None
          end
      end
  end.

Definition sitemap_locs (t : jsstr) : option (list jsstr) :=
  match strip sitemap_head t with
  | None => None
  | Some r =>
      if bool_decide (r = u_lf :: urlset_close) then Some []
      else read_entries (length r) r
  end.

Definition no_lt (s : jsstr) : bool := forallb (fun c => negb (c =? u_lt)) s.

(** ** Lemmas *)

Lemma strip_app p r : strip p (p ++ r) = Some r.
Proof. induction p as [|a p IH]; simpl; [done|]. by rewrite Z.eqb_refl. Qed.

Lemma split_at_lt_app u r :
  no_lt u = true -> split_at_lt (u ++ u_lt :: r) = (u, u_lt :: r).
Proof.
  induction u as [|c u IH]; simpl; intros Hu.
  - by rewrite ?Z.eqb_refl.
  - apply andb_prop in Hu as [Hc Hu]. apply negb_true_iff in Hc. by rewrite Hc, IH.
Qed.

Lemma join_with_cons2 sep x y l :
  join_with sep (x :: y :: l) = x ++ sep ++ join_with sep (y :: l).
Proof. simpl. by rewrite <- app_assoc. Qed.

Lemma hd_entry u r : hd 0 (sitemap_entry u ++ r) = 32.
Proof. unfold sitemap_entry, entry_open. by rewrite <- app_assoc. Qed.

(** An entry starts with a space, so it is neither a line feed nor the
    closing tag. *)
Lemma entry_ne u r x : hd 0 x <> 32 -> sitemap_entry u ++ r <> x.
Proof. intros Hx H. apply Hx. by rewrite <- H, hd_entry. Qed.

Lemma read_entries_join n us :
  us <> [] -> Forall (fun u => no_lt u = true) us -> (length us <= n)%nat ->
  read_entries n (join_with [u_lf] (map sitemap_entry us) ++ [u_lf] ++ urlset_close) = Some us.
Proof.
  revert n. induction us as [|u us IH]; intros n Hne Hf Hn; [done|].
  apply Forall_cons in Hf as [Hu Hf]. destruct n as [|n]; [simpl in Hn; lia|].
  assert (Hent : forall rest, strip entry_open (sitemap_entry u ++ rest) = Some (u ++ entry_close ++ rest))
    by (intros; unfold sitemap_entry; by rewrite <- !app_assoc, strip_app).
  assert (Hsplit : forall rest, split_at_lt (u ++ entry_close ++ rest) = (u, entry_close ++ rest))
    by (intros; by apply split_at_lt_app).
  destruct us as [|u' us].
  - cbn [map join_with flat_map]. rewrite app_nil_r. cbn [read_entries].
    rewrite Hent, Hsplit, strip_app. cbn [app]. rewrite Z.eqb_refl.
    by rewrite bool_decide_eq_true_2.
  - rewrite map_cons, map_cons, join_with_cons2, <- !app_assoc. cbn [read_entries].
    rewrite Hent, Hsplit, strip_app. cbn [app]. rewrite Z.eqb_refl.
    rewrite bool_decide_eq_false_2
      by (cbn [map join_with]; rewrite <- !app_assoc; apply entry_ne; vm_compute; discriminate).
    change (u_lf :: urlset_close) with ([u_lf] ++ urlset_close).
    rewrite <- map_cons, IH; [done|done|done|simpl in *; lia].
Qed.

Lemma sitemap_url_no_lt q : no_lt (id_string (qid q)) = true -> no_lt (sitemap_url q) = true.
Proof. intros H. unfold sitemap_url, no_lt in *. by rewrite !forallb_app, H. Qed.


Lemma length_join_entries us :
  (length us <= length (join_with [u_lf] (map sitemap_entry us)))%nat.
Proof.
  destruct us as [|u us]; [simpl; lia|]. cbn [map join_with]. rewrite length_app.
  assert (1 <= length (sitemap_entry u))%nat.
  { unfold sitemap_entry. rewrite !length_app. unfold entry_open. simpl. lia. }
  assert (length us <= length (flat_map (fun y => [u_lf] ++ y) (map sitemap_entry us)))%nat.
  { rewrite <- (length_map sitemap_entry us). apply (length_flat_map_ge' u_lf). }
  cbn [length]. lia.
Qed.

Lemma length_join_entries' us :
  (length us <= length (join_with [u_lf] (map sitemap_entry us) ++ [u_lf] ++ urlset_close))%nat.
Proof. rewrite length_app. pose proof (length_join_entries us). lia. Qed.

(** ** Properties *)

(** C19 (roundtrip): when no id holds a [<], reading the [<loc>] values of
    the sitemap gives back the URL of each kept question, in order: one
    entry per page written. *)
Theorem sitemap_roundtrip qs :
  Forall (fun q => no_lt (id_string (qid q)) = true) qs ->
  sitemap_locs (sitemap_xml qs) = Some (map sitemap_url qs).
Proof.
  intros Hf. unfold sitemap_locs, sitemap_xml. rewrite strip_app.
  destruct qs as [|q qs]; [by rewrite bool_decide_eq_true_2|].
  rewrite bool_decide_eq_false_2 by (cbn [map join_with]; rewrite <- !app_assoc; apply entry_ne; vm_compute; discriminate).
  apply read_entries_join; [done| |apply length_join_entries'].
  apply Forall_map. eapply Forall_impl; [exact Hf|]. apply sitemap_url_no_lt.
Qed.

Lemma sitemap_roundtrip_witness :
  Forall (fun q => no_lt (id_string (qid q)) = true) [sample_question] /\
  sitemap_locs (sitemap_xml [sample_question]) = Some (map sitemap_url [sample_question]).
Proof.
  assert (H : Forall (fun q => no_lt (id_string (qid q)) = true) [sample_question])
    by (apply List.Forall_cons; [vm_compute; reflexivity|apply List.Forall_nil]).
  split; [exact H|]. exact (sitemap_roundtrip _ H).
Defined.

(** ** Ids the sitemap does not escape *)




