(* ===== verification/Fs.v ===== *)
(** * Fs: the file system [generate.mjs] touches, and its error monad

    The script calls five Node functions on the file system:
    [fs.existsSync], [fs.readFileSync], [fs.mkdirSync(p, {recursive:true})]
    (through [ensureDir], lines 22-24), [fs.writeFileSync] and
    [console.log], and builds every path with [path.join].  This file
    models them:
    - paths are normalised absolute paths, the lists of their segments
      ([[]] is [/]); [path_join] is [path.join] on such a base: the added
      text is split at [/], empty and [.] segments are dropped and [..]
      removes the previous segment, or nothing at the root;
    - [process_cwd] is [process.cwd()], the working directory, which
      fails once that directory is gone;
    - the state [fs] holds the files (their bytes), the directories and the
      lines printed on standard output;
    - each operation is a function of the state returning a result and the
      new state, in the monad [M]; a thrown error leaves the state as the
      failing call found it, so what was written before stays written;
    - the errors are the [errno] codes Node reports ([EEXIST], [ENOENT],
      [ENOTDIR], [EISDIR]) and the script's own exceptions.
    [fs_wf] is the well-formedness of a file system (no path is both a file
    and a directory, and every file and directory lies in a directory);
    [ensure_dir] and [write_file] preserve it, [ensure_dir] is
    idempotent and a no-op on an existing directory, and [path_join]
    keeps paths normalised. *)

From Stdlib Require Import String.
From stdpp Require Import base list gmap.
From Stdlib Require Import ZArith Lia.
From S2P Require Import Prelude Unicode.
Local Set Warnings "-clear-no-such-hyp".
Open Scope Z_scope.

Abbreviation path := (list jsstr).

(** ** [path.join] *)

Definition u_slash : Z := Eval cbv in unit_of "/".
Definition seg_dot : jsstr := Eval cbv in lit ".".
Definition seg_dotdot : jsstr := Eval cbv in lit "..".

(** The pieces of a path string between its slashes. *)
Fixpoint split_slash (s : jsstr) : list jsstr :=
  match s with
  | [] => [[]]
  | c :: s' =>
      if c =? u_slash then [] :: split_slash s'
      else match split_slash s' with
           | w :: ws => (c :: w) :: ws
           | [] => [[c]]
           end
  end.

(** [path.normalize] on the segments of an absolute path; [acc] holds the
    result reversed.  A [..] removes the previous segment, and at the root
    it is dropped, as [normalizeString] does when [allowAboveRoot] is false
    (the path is absolute). *)
Fixpoint norm_segs (acc : path) (segs : list jsstr) : path :=
  match segs with
  | [] => rev acc
  | s :: segs' =>
      if bool_decide (s = []) || bool_decide (s = seg_dot) then norm_segs acc segs'
      else if bool_decide (s = seg_dotdot) then norm_segs (tail acc) segs'
      else norm_segs (s :: acc) segs'
  end.

(** [path.join(base, s)] for a normalised absolute [base]. *)
Definition path_join (base : path) (s : jsstr) : path :=
  norm_segs (rev base) (split_slash s).

(** A segment of a normalised path: not empty, not [.] or [..], and
    without a slash. *)
Definition seg_ok (s : jsstr) : bool :=
  negb (bool_decide (s = [])) && negb (bool_decide (s = seg_dot)) &&
  negb (bool_decide (s = seg_dotdot)) && negb (existsb (Z.eqb u_slash) s).

(** The text of an absolute path, as [process.cwd()] returns it: [/] for
    the root, else a slash before each segment. *)
Definition path_text (p : path) : jsstr :=
  match p with [] => [u_slash] | _ => flat_map (fun s => u_slash :: s) p end.

(** ** State, errors and the monad *)

Record fs := mkFs {
  files : gmap path (list Z);
  dirs : gset path;
  stdout : list jsstr
}.

Inductive errno := EEXIST | ENOENT | ENOTDIR | EISDIR.

Inductive error :=
| ErrFs (code : errno) (p : path)   (** a failed file-system call *)
| ErrNotFound                       (** [loadJson]: no [questions.json] (line 28) *)
| ErrSyntax                         (** [JSON.parse] rejects the text (line 31) *)
| ErrNotArray                       (** [loadJson]: not an array (line 32) *)
| ErrUri.                           (** [encodeURIComponent] in [pageHtml] *)

Inductive res (A : Type) := Ok (a : A) | Err (e : error).
Arguments Ok {A} a.
Arguments Err {A} e.

Definition M (A : Type) : Type := fs -> res A * fs.

Definition mret {A} (a : A) : M A := fun st => (Ok a, st).

Definition mbind {A B} (m : M A) (k : A -> M B) : M B := fun st =>
  match m st with
  | (Ok a, st') => k a st'
  | (Err e, st') => (Err e, st')
  end.

Definition throw {A} (e : error) : M A := fun st => (Err e, st).

Declare Scope fs_scope.
Delimit Scope fs_scope with fs.
Notation "x <- m ;; k" := (mbind m (fun x => k))
  (at level 60, m at next level, right associativity) : fs_scope.
Notation "m ;;; k" := (mbind m (fun _ => k))
  (at level 60, right associativity) : fs_scope.
Open Scope fs_scope.

(** ** Operations *)

Definition is_dir (st : fs) (p : path) : bool :=
  bool_decide (p = []) || bool_decide (p ∈ dirs st).

Definition is_file (st : fs) (p : path) : bool :=
  bool_decide (is_Some (files st !! p)).

Definition parent (p : path) : path := removelast p.

(** Whether some leading part of [p] is a file. *)
Definition ancestor_file (st : fs) (p : path) : bool :=
  existsb (fun k => is_file st (take k p)) (seq 1 (length p)).

Definition add_dir (p : path) (st : fs) : fs :=
  mkFs (files st) ({[p]} ∪ dirs st) (stdout st).

Definition put_file (p : path) (b : list Z) (st : fs) : fs :=
  mkFs (<[p := b]> (files st)) (dirs st) (stdout st).

(** [fs.existsSync(p)]. *)
Definition exists_sync (p : path) : M bool := fun st =>
  (Ok (is_dir st p || is_file st p), st).

(** [fs.readFileSync(p, ...)], the bytes of a file. *)
Definition read_file (p : path) : M (list Z) := fun st =>
  match files st !! p with
  | Some b => (Ok b, st)
  | None => (Err (ErrFs (if is_dir st p then EISDIR else ENOENT) p), st)
  end.

(** [fs.mkdirSync(target, {recursive: true})], walking down from [pre]
    through the segments [rest]: a file on the way stops it. *)
Fixpoint mkdir_go (target pre : path) (rest : list jsstr) (st : fs) : res unit * fs :=
  match rest with
  | [] => (Ok tt, st)
  | s :: rest' =>
      let p := pre ++ [s] in
      if is_file st p then
        (Err (ErrFs (match rest' with [] => EEXIST | _ => ENOTDIR end) target), st)
      else mkdir_go target p rest' (if is_dir st p then st else add_dir p st)
  end.

(** [ensureDir] (lines 22-24). *)
Definition ensure_dir (p : path) : M unit := mkdir_go p [] p.

(** [fs.writeFileSync(p, bytes)]: the directories leading to [p] must
    exist, and [p] must not be a directory. *)
Definition write_file (p : path) (b : list Z) : M unit := fun st =>
  if negb (is_dir st (parent p)) then
    (Err (ErrFs (if ancestor_file st (parent p) then ENOTDIR else ENOENT) p), st)
  else if is_dir st p then (Err (ErrFs EISDIR p), st)
  else (Ok tt, put_file p b st).

(** [process.cwd()]: the working directory [cwd] of the process, which
    [getcwd] reports only while it is a directory ([ENOENT] once it has
    been removed). *)
Definition process_cwd (cwd : path) : M path := fun st =>
  if is_dir st cwd then (Ok cwd, st) else (Err (ErrFs ENOENT cwd), st).

(** [console.log(line)]. *)
Definition log (line : jsstr) : M unit := fun st =>
  (Ok tt, mkFs (files st) (dirs st) (stdout st ++ [line])).

(** ** Well-formedness *)

Definition fs_wf (st : fs) : Prop :=
  (forall p, p ∈ dirs st -> files st !! p = None) /\
  (forall p, p ∈ dirs st -> is_dir st (parent p) = true) /\
  (forall p b, files st !! p = Some b -> p <> [] /\ is_dir st (parent p) = true).

(** ** Lemmas *)

Lemma parent_snoc (pre : path) s : parent (pre ++ [s]) = pre.
Proof. apply removelast_last. Qed.

Lemma is_dir_add_dir st p q :
  is_dir (add_dir p st) q = is_dir st q || bool_decide (q = p).
Proof.
  unfold is_dir, add_dir. cbn [dirs].
  case_bool_decide; case_bool_decide; case_bool_decide; case_bool_decide; set_solver.
Qed.

Lemma is_dir_put_file st p b q : is_dir (put_file p b st) q = is_dir st q.
Proof. done. Qed.

(** A name without a slash, other than [.], [..] and the empty name, is
    one more segment of the path it is joined to. *)
Lemma split_slash_noslash s : existsb (Z.eqb u_slash) s = false -> split_slash s = [s].
Proof.
  induction s as [|c s IH]; cbn [existsb split_slash]; [done|]. intros [Hc Hs]%orb_false_iff.
  rewrite Z.eqb_sym in Hc. by rewrite Hc, IH.
Qed.

Lemma seg_ok_spec s :
  seg_ok s = true <->
  s <> [] /\ s <> seg_dot /\ s <> seg_dotdot /\ existsb (Z.eqb u_slash) s = false.
Proof.
  unfold seg_ok. rewrite !andb_true_iff, !negb_true_iff, !bool_decide_eq_false.
  split; intros; naive_solver.
Qed.

(** Splitting at the first slash. *)
Lemma split_slash_seg s r :
  existsb (Z.eqb u_slash) s = false -> split_slash (s ++ u_slash :: r) = s :: split_slash r.
Proof.
  induction s as [|c s IH]; cbn [existsb app split_slash]; [by rewrite Z.eqb_refl|].
  intros [Hc Hs]%orb_false_iff. rewrite Z.eqb_sym in Hc. by rewrite Hc, IH.
Qed.

(** Segments of a normalised path are appended as they are. *)
Lemma norm_segs_ok acc segs :
  Forall (fun s => seg_ok s = true) segs -> norm_segs acc segs = rev acc ++ segs.
Proof.
  revert acc. induction segs as [|s segs IH]; intros acc Hf; simpl; [by rewrite app_nil_r|].
  apply Forall_cons in Hf as [(Hne & Hd & Hdd & _)%seg_ok_spec Hf].
  rewrite !bool_decide_eq_false_2 by done. simpl. rewrite IH by done. simpl. by rewrite <- app_assoc.
Qed.

(** Each [..] climbs one segment, and none climbs above the root. *)
Lemma norm_segs_climb acc n rest :
  norm_segs acc (repeat seg_dotdot n ++ rest) = norm_segs (drop n acc) rest.
Proof.
  revert acc. induction n as [|n IH]; intros acc; cbn [repeat app]; [by rewrite drop_0|].
  cbn [norm_segs]. rewrite (bool_decide_eq_false_2 (seg_dotdot = [])) by (intros H; vm_compute in H; discriminate H).
  rewrite (bool_decide_eq_false_2 (seg_dotdot = seg_dot)) by (intros H; vm_compute in H; discriminate H).
  rewrite bool_decide_eq_true_2 by done. rewrite (IH (tail acc)). destruct acc; simpl; rewrite ?drop_nil; done.
Qed.

Lemma split_slash_pieces s : Forall (fun w => existsb (Z.eqb u_slash) w = false) (split_slash s).
Proof.
  induction s as [|c s IH]; cbn [split_slash]; [by repeat constructor|].
  destruct (c =? u_slash) eqn:Ec; [by constructor|].
  destruct (split_slash s) as [|w ws]; [constructor; [cbn [existsb]; by rewrite Z.eqb_sym, Ec|constructor]|].
  apply Forall_cons in IH as [Hw Hws]. constructor; [|done]. cbn [existsb]. by rewrite Z.eqb_sym, Ec.
Qed.

Lemma norm_segs_normal acc segs :
  Forall (fun x => seg_ok x = true) acc -> Forall (fun w => existsb (Z.eqb u_slash) w = false) segs ->
  Forall (fun x => seg_ok x = true) (norm_segs acc segs).
Proof.
  revert acc. induction segs as [|w segs IH]; intros acc Hacc Hsegs; simpl; [by apply Forall_rev|].
  apply Forall_cons in Hsegs as [Hw Hsegs].
  destruct (bool_decide (w = []) || bool_decide (w = seg_dot)) eqn:E1; [by apply IH|].
  destruct (bool_decide (w = seg_dotdot)) eqn:E2; apply IH; try done.
  - destruct acc; [done|]. by apply Forall_cons in Hacc as [_ ?].
  - constructor; [|done]. apply orb_false_iff in E1 as [E1 E1']. apply seg_ok_spec.
    by rewrite bool_decide_eq_false in E1, E1', E2.
Qed.

Lemma path_join_segment base s : seg_ok s = true -> path_join base s = base ++ [s].
Proof.
  intros Hs. pose proof Hs as (_ & _ & _ & Hsl)%seg_ok_spec. unfold path_join.
  rewrite split_slash_noslash by done. rewrite norm_segs_ok by (by constructor).
  by rewrite rev_involutive.
Qed.

Lemma mkdir_go_ok target pre rest st :
  (forall k, (1 <= k <= length rest)%nat -> is_file st (pre ++ take k rest) = false) ->
  exists st', mkdir_go target pre rest st = (Ok tt, st') /\
    files st' = files st /\ stdout st' = stdout st /\
    (is_dir st pre = true -> is_dir st' (pre ++ rest) = true) /\
    (forall q, is_dir st q = true -> is_dir st' q = true).
Proof.
  revert pre st. induction rest as [|s rest IH]; intros pre st Hnf; simpl.
  - exists st. rewrite app_nil_r. naive_solver.
  - pose proof (Hnf 1%nat ltac:(simpl; lia)) as H1. simpl in H1. rewrite take_0 in H1. rewrite H1.
    destruct (IH (pre ++ [s]) (if is_dir st (pre ++ [s]) then st else add_dir (pre ++ [s]) st))
      as (st' & E & Hf & Ho & Hd & Hmono).
    { intros k Hk. specialize (Hnf (S k)). rewrite <- app_assoc. simpl in Hnf.
      destruct (is_dir st (pre ++ [s])); [apply Hnf; lia|]. unfold is_file, add_dir. simpl.
      apply Hnf. lia. }
    exists st'. rewrite E. rewrite <- app_assoc in Hd. simpl in Hd.
    destruct (is_dir st (pre ++ [s])) eqn:Hds; simpl in *.
    + repeat split; auto.
    + repeat split; auto.
      * intros _. apply Hd. rewrite is_dir_add_dir. by rewrite bool_decide_eq_true_2, orb_true_r.
      * intros q Hq. apply Hmono. by rewrite is_dir_add_dir, Hq.
Qed.

Lemma write_file_ok p b st :
  is_dir st (parent p) = true -> is_dir st p = false ->
  write_file p b st = (Ok tt, put_file p b st).
Proof. intros Hp Hd. unfold write_file. by rewrite Hp, Hd. Qed.

Lemma write_file_err p b st e st' :
  write_file p b st = (Err e, st') -> st' = st.
Proof. unfold write_file. by repeat case_match; intros [= <- <-]. Qed.

Lemma fs_wf_add_dir st p :
  fs_wf st -> is_file st p = false -> is_dir st (parent p) = true -> fs_wf (add_dir p st).
Proof.
  intros (Hdf & Hdp & Hfp) Hf Hpar. unfold is_file in Hf. apply bool_decide_eq_false_1 in Hf.
  split; [|split]; cbn [files dirs add_dir].
  - intros q [->%elem_of_singleton|Hq]%elem_of_union; [by apply eq_None_not_Some|auto].
  - intros q [->%elem_of_singleton|Hq]%elem_of_union; rewrite is_dir_add_dir.
    + by rewrite Hpar.
    + by rewrite Hdp.
  - intros q b' Hq. destruct (Hfp q b' Hq) as [? H]. split; [done|].
    by rewrite is_dir_add_dir, H.
Qed.

Lemma mkdir_go_wf target pre rest st :
  fs_wf st -> is_dir st pre = true -> fs_wf (snd (mkdir_go target pre rest st)).
Proof.
  revert pre st. induction rest as [|s rest IH]; intros pre st Hwf Hpre; simpl; [done|].
  destruct (is_file st (pre ++ [s])) eqn:Hf; [done|].
  destruct (is_dir st (pre ++ [s])) eqn:Hd; apply IH; try done.
  - apply fs_wf_add_dir; [done|done|]. by rewrite parent_snoc.
  - rewrite is_dir_add_dir. by rewrite bool_decide_eq_true_2, orb_true_r.
Qed.

Lemma is_dir_not_file st p : fs_wf st -> is_dir st p = true -> files st !! p = None.
Proof.
  intros (Hdf & _ & Hfp) Hd. unfold is_dir in Hd.
  apply orb_prop in Hd as [Hd|Hd]; apply bool_decide_eq_true_1 in Hd.
  - subst. destruct (files st !! []) as [b|] eqn:E; [|done]. by destruct (Hfp [] b E).
  - by apply Hdf.
Qed.

(** A property of the state that a computation keeps, whether it returns
    or throws. *)
Definition preserves {A} (P : fs -> Prop) (m : M A) : Prop :=
  forall st, P st -> P (snd (m st)).

Lemma preserves_ret {A} P (a : A) : preserves P (mret a).
Proof. by intros st. Qed.

Lemma preserves_throw {A} P e : preserves P (@throw A e).
Proof. by intros st. Qed.

Lemma preserves_bind {A B} P (m : M A) (k : A -> M B) :
  preserves P m -> (forall a, preserves P (k a)) -> preserves P (mbind m k).
Proof.
  intros Hm Hk st Hst. unfold mbind. specialize (Hm st Hst).
  destruct (m st) as [[a|e] st']; simpl in *; [by apply Hk|done].
Qed.

Lemma preserves_log P line :
  (forall st, P st -> P (mkFs (files st) (dirs st) (stdout st ++ [line]))) -> preserves P (log line).
Proof. intros H st. apply H. Qed.

Create HintDb fs_preserves discriminated.
#[export] Hint Resolve preserves_ret preserves_throw preserves_bind : fs_preserves.

Lemma write_file_preserves p b : preserves fs_wf (write_file p b).
Proof.
  intros st Hwf. unfold write_file.
  destruct (is_dir st (parent p)) eqn:Hpar; [|done]. destruct (is_dir st p) eqn:Hd; [done|].
  destruct Hwf as (Hdf & Hdp & Hfp). cbn [snd negb]. unfold fs_wf.
  change (files (put_file p b st)) with (<[p:=b]> (files st)).
  change (dirs (put_file p b st)) with (dirs st).
  assert (Hpd : p ∉ dirs st) by (intros Hin; unfold is_dir in Hd; rewrite (bool_decide_eq_true_2 (p ∈ dirs st)) in Hd by done; by rewrite orb_true_r in Hd).
  assert (Hpn : p <> []) by (intros ->; done).
  split; [|split].
  - intros q Hq. rewrite lookup_insert_ne by (intros ->; done). auto.
  - intros q Hq. rewrite is_dir_put_file. auto.
  - intros q b' Hq. rewrite is_dir_put_file. destruct (decide (q = p)) as [->|Hne]; [by split|].
    rewrite lookup_insert_ne in Hq by done. eauto.
Qed.

(** ** Running a sequence *)

Lemma mbind_ok {A B} (m : M A) (k : A -> M B) st a st' :
  m st = (Ok a, st') -> mbind m k st = k a st'.
Proof. intros E. unfold mbind. by rewrite E. Qed.

Lemma mbind_err {A B} (m : M A) (k : A -> M B) st e st' :
  m st = (Err e, st') -> mbind m k st = (Err e, st').
Proof. intros E. unfold mbind. by rewrite E. Qed.

(** A sequence either stops in its first step or runs the rest from the
    state that step left. *)
Lemma mbind_inv {A B} (m : M A) (k : A -> M B) st r st'' :
  mbind m k st = (r, st'') ->
  (exists e, m st = (Err e, st'') /\ r = Err e) \/
  (exists a st', m st = (Ok a, st') /\ k a st' = (r, st'')).
Proof.
  unfold mbind. destruct (m st) as [[a|e] st'] eqn:E; intros H; [right|left]; [by eauto|].
  injection H as <- <-. eauto.
Qed.

(** Split a hypothesis [mbind m k st = (r, st'')] into its two cases. *)
Ltac mstep H :=
  apply mbind_inv in H as [(?e & ?Hm & ?) | (?a & ?st & ?Hm & H)].

Lemma write_file_ok_inv p b st st' :
  write_file p b st = (Ok tt, st') -> st' = put_file p b st.
Proof. unfold write_file. by repeat case_match; intros [= <-]. Qed.

Lemma mkdir_go_files target pre rest st :
  files (snd (mkdir_go target pre rest st)) = files st /\
  stdout (snd (mkdir_go target pre rest st)) = stdout st.
Proof.
  revert pre st. induction rest as [|s rest IH]; intros pre st; simpl; [done|].
  case_match; [done|]. destruct (IH (pre ++ [s]) (if is_dir st (pre ++ [s]) then st else add_dir (pre ++ [s]) st)) as [-> ->].
  by case_match.
Qed.

Lemma ensure_dir_preserves p : preserves fs_wf (ensure_dir p).
Proof. intros st Hwf. apply mkdir_go_wf; [done|]. reflexivity. Qed.

Lemma log_preserves line : preserves fs_wf (log line).
Proof. apply preserves_log. by intros st H. Qed.

Lemma mkdir_go_mono target pre rest st q :
  is_dir st q = true -> is_dir (snd (mkdir_go target pre rest st)) q = true.
Proof.
  revert pre st. induction rest as [|s rest IH]; intros pre st Hq; simpl; [done|].
  case_match; [done|]. apply IH. case_match; [done|]. by rewrite is_dir_add_dir, Hq.
Qed.

(** After [mkdirSync] returns, every directory on the way exists and none
    of them is a file. *)
Lemma mkdir_go_ok_inv target pre rest st st' :
  mkdir_go target pre rest st = (Ok tt, st') ->
  forall k, (1 <= k <= length rest)%nat ->
    is_file st' (pre ++ take k rest) = false /\ is_dir st' (pre ++ take k rest) = true.
Proof.
  revert pre st. induction rest as [|s rest IH]; intros pre st H k Hk; simpl in Hk; [lia|].
  simpl in H. destruct (is_file st (pre ++ [s])) eqn:Hf; [done|].
  set (st1 := if is_dir st (pre ++ [s]) then st else add_dir (pre ++ [s]) st) in H.
  destruct k as [|[|k]]; [lia| |].
  - change (take 1 (s :: rest)) with [s]. split.
    + unfold is_file. pose proof (mkdir_go_files target (pre ++ [s]) rest st1) as [Hfs _].
      rewrite H in Hfs. simpl in Hfs. rewrite Hfs.
      assert (files st1 = files st) as -> by (unfold st1; by case_match). exact Hf.
    + pose proof (mkdir_go_mono target (pre ++ [s]) rest st1 (pre ++ [s])) as Hm. rewrite H in Hm.
      apply Hm. unfold st1. case_match; [done|]. rewrite is_dir_add_dir. by rewrite bool_decide_eq_true_2, orb_true_r.
  - change (take (S (S k)) (s :: rest)) with (s :: take (S k) rest).
    rewrite app_snoc_cons. apply (IH _ _ H). lia.
Qed.

(** [mkdirSync] on a path whose directories all exist changes nothing. *)
Lemma mkdir_go_noop target pre rest st :
  (forall k, (1 <= k <= length rest)%nat ->
     is_file st (pre ++ take k rest) = false /\ is_dir st (pre ++ take k rest) = true) ->
  mkdir_go target pre rest st = (Ok tt, st).
Proof.
  revert pre. induction rest as [|s rest IH]; intros pre H; simpl; [done|].
  destruct (H 1%nat ltac:(simpl; lia)) as [Hf Hd].
  change (take 1 (s :: rest)) with [s] in Hf, Hd. rewrite Hf, Hd.
  apply IH. intros k Hk. rewrite <- app_snoc_cons. apply (H (S k)). simpl. lia.
Qed.

Lemma fs_wf_empty : fs_wf (mkFs ∅ ∅ []).
Proof.
  split; [|split]; cbn [dirs files]; [set_solver|set_solver|].
  intros p b Hp. by rewrite lookup_empty in Hp.
Qed.

Lemma is_dir_parent st p : fs_wf st -> is_dir st p = true -> is_dir st (parent p) = true.
Proof.
  intros (_ & Hdp & _) Hd. unfold is_dir in Hd.
  apply orb_prop in Hd as [Hd|Hd]; apply bool_decide_eq_true_1 in Hd; [by subst|by apply Hdp].
Qed.

(** In a well-formed file system every ancestor of a directory is one. *)
Lemma is_dir_take st p k : fs_wf st -> is_dir st p = true -> is_dir st (take k p) = true.
Proof.
  intros Hwf Hp. remember (length p - k)%nat as d eqn:Hd. revert k Hd.
  induction d as [|d IH]; intros k Hd; [by rewrite take_ge by lia|].
  destruct (lookup_lt_is_Some_2 p k) as [x Hx]; [lia|].
  rewrite <- (parent_snoc (take k p) x), <- take_S_r by done.
  apply is_dir_parent; [done|]. apply IH. lia.
Qed.

(** [mkdirSync] on an existing directory changes nothing. *)
Lemma mkdir_go_existing target st p :
  fs_wf st -> is_dir st p = true -> mkdir_go target [] p st = (Ok tt, st).
Proof.
  intros Hwf Hp. apply mkdir_go_noop. intros k _. cbn [app].
  pose proof (is_dir_take st p k Hwf Hp) as Hd. split; [|done].
  unfold is_file. rewrite (is_dir_not_file st _ Hwf Hd). by apply bool_decide_eq_false_2, is_Some_None.
Qed.

Lemma ensure_dir_noop st p : fs_wf st -> is_dir st p = true -> ensure_dir p st = (Ok tt, st).
Proof. apply mkdir_go_existing. Qed.

(** [writeFileSync] and [console.log] never create a directory. *)
Lemma write_file_dirs p b st : dirs (snd (write_file p b st)) = dirs st.
Proof. unfold write_file. by repeat case_match. Qed.

Lemma log_dirs line st : dirs (snd (log line st)) = dirs st.
Proof. done. Qed.

Lemma process_cwd_preserves P cwd : preserves P (process_cwd cwd).
Proof. intros st H. unfold process_cwd. by case_match. Qed.

#[export] Hint Resolve process_cwd_preserves : fs_preserves.

(** ** Properties *)

(** C34 (type): paths stay normalised: [path.join] of a normalised
    absolute path and any text is a normalised absolute path, its segments
    neither empty nor [.] or [..] and without a slash, whatever [..] or
    slashes the text holds. *)
Theorem path_join_normal base s :
  Forall (fun x => seg_ok x = true) base -> Forall (fun x => seg_ok x = true) (path_join base s).
Proof. intros Hb. apply norm_segs_normal; [by apply Forall_rev|apply split_slash_pieces]. Qed.

Lemma path_join_normal_witness :
  Forall (fun x => seg_ok x = true) [lit "home"] /\
  Forall (fun x => seg_ok x = true) (path_join [lit "home"] (lit "a//./../../../b/c")).
Proof.
  assert (H : Forall (fun x => seg_ok x = true) [lit "home"]) by (constructor; [reflexivity|constructor]).
  split; [exact H|]. exact (path_join_normal _ _ H).
Defined.

(** C35 (functional): [ensureDir] is idempotent, as the spec says: calling
    it twice on a path does exactly what calling it once does, whether it
    returns or throws at a file on the way. *)
Theorem ensure_dir_idempotent p st : (ensure_dir p ;;; ensure_dir p) st = ensure_dir p st.
Proof.
  unfold mbind. destruct (ensure_dir p st) as [[[]|e] st'] eqn:E; [|done].
  apply mkdir_go_noop. intros k Hk. exact (mkdir_go_ok_inv _ _ _ _ _ E k Hk).
Qed.


(** ** Writing a sequence of files *)

(** Inserting the bindings [f x := g x] of a sequence in order: the last
    binding of a key wins. *)
Lemma lookup_foldl_insert {A} (f : A -> path) (g : A -> list Z) (xs : list A)
    (m : gmap path (list Z)) k :
  foldl (fun m x => <[f x := g x]> m) m xs !! k =
  match last (filter (fun x => f x = k) xs) with Some x => Some (g x) | None => m !! k end.
Proof.
  revert m. induction xs as [|x xs IH] using rev_ind; intros m; [done|].
  rewrite foldl_app, filter_app. simpl. rewrite filter_cons, filter_nil.
  destruct (decide (f x = k)) as [<-|Hne].
  - rewrite lookup_insert_eq, last_app. done.
  - rewrite lookup_insert_ne by done. rewrite app_nil_r. apply IH.
Qed.
